(** * err-fastlane: the [Fastlane] chat-bot plugin ([fastlane.py])

    A shallow embedding of the plugin and the properties of its
    specification.  The plugin is straight-line orchestration of external
    commands, so the embedding is a small state-and-exception monad over
    an explicit model of what the plugin can observe of its host: the
    filesystem, the process environment, child processes and the chat
    backend.

    Python [str] values are modelled as [string] (the bytes of their UTF-8
    encoding), so [str.encode] keeps the representation and decoding the
    bytes of a child process, in the UTF-8 locale the bot is taken to run
    in, is a validity check.  [str.lower] is modelled on text written in
    ASCII; the properties that depend on it are stated for such text. *)

From Stdlib Require Import ZArith Ascii String List Lia.
From stdpp Require Import base gmap strings list.

Local Open Scope Z_scope.

(* ===================================================================== *)
(** * Python string operations used by the plugin *)
(* ===================================================================== *)

Module Py.

(** [str.lower] on one character: the letters A to Z move to a to z. *)
Definition ascii_lower (c : ascii) : ascii :=
  let n := N_of_ascii c in
  if ((65 <=? n) && (n <=? 90))%N then ascii_of_N (n + 32) else c.

(** [s.isascii()] *)
Fixpoint is_ascii (s : string) : bool :=
  match s with
  | EmptyString => true
  | String c s' => (N_of_ascii c <? 128)%N && is_ascii s'
  end.

(** [str.lower], the [type=] conversion of [--project-name], on text
    for which [is_ascii] holds.  (Cased characters outside ASCII, which
    [str.lower] maps by the Unicode tables, are left as they are.) *)
Fixpoint str_lower (s : string) : string :=
  match s with
  | EmptyString => EmptyString
  | String c s' => String (ascii_lower c) (str_lower s')
  end.

(** [s.startswith(p)] *)
Definition startswith (s p : string) : bool := String.prefix p s.

(** The last character of [s], if any. *)
Fixpoint last_char (s : string) : option ascii :=
  match s with
  | EmptyString => None
  | String c EmptyString => Some c
  | String _ s' => last_char s'
  end.

(** [s.endswith(c)] for a one-character suffix. *)
Definition endswith_char (s : string) (c : ascii) : bool :=
  match last_char s with
  | Some d => bool_decide (d = c)
  | None => false
  end.

(** [s.split(sep)] for a one-character separator: never the empty list,
    ["".split("/")] is [[""]]. *)
Fixpoint split (sep : ascii) (s : string) : list string :=
  match s with
  | EmptyString => [EmptyString]
  | String c s' =>
      if bool_decide (c = sep) then EmptyString :: split sep s'
      else match split sep s' with
           | [] => [String c EmptyString]
           | h :: t => String c h :: t
           end
  end.

(** [sep.join(parts)] *)
Definition join (sep : string) (parts : list string) : string :=
  String.concat sep parts.

(** [str.encode(s)] (UTF-8): the identity on this representation. *)
Definition str_encode (s : string) : string := s.

(** The byte [c] lies between [lo] and [hi]. *)
Definition byte_in (lo hi : N) (c : ascii) : bool :=
  let n := N_of_ascii c in ((lo <=? n) && (n <=? hi))%N.

(** Well-formed UTF-8, as the strict decoder accepts it: no stray or
    missing continuation byte, no overlong form, no surrogate, nothing
    above U+10FFFF. *)
Fixpoint valid_utf8 (b : string) : bool :=
  match b with
  | EmptyString => true
  | String b0 r1 =>
      let n := N_of_ascii b0 in
      if (n <? 128)%N then valid_utf8 r1
      else if byte_in 194 223 b0 then
        match r1 with
        | String b1 r2 => byte_in 128 191 b1 && valid_utf8 r2
        | _ => false
        end
      else if byte_in 224 239 b0 then
        match r1 with
        | String b1 (String b2 r3) =>
            byte_in (if (n =? 224)%N then 160 else 128)
                    (if (n =? 237)%N then 159 else 191) b1
            && byte_in 128 191 b2 && valid_utf8 r3
        | _ => false
        end
      else if byte_in 240 244 b0 then
        match r1 with
        | String b1 (String b2 (String b3 r4)) =>
            byte_in (if (n =? 240)%N then 144 else 128)
                    (if (n =? 244)%N then 143 else 191) b1
            && byte_in 128 191 b2 && byte_in 128 191 b3 && valid_utf8 r4
        | _ => false
        end
      else false
  end.

(** [b.decode("utf-8")] with the [strict] error handler; [None] is
    [UnicodeDecodeError]. *)
Definition bytes_decode (b : string) : option string :=
  if valid_utf8 b then Some b else None.

Definition CR : ascii := "013"%char.
Definition LF : ascii := "010"%char.

(** [s.replace("\r\n", "\n")] *)
Fixpoint replace_crlf (s : string) : string :=
  match s with
  | EmptyString => EmptyString
  | String c s' =>
      match s' with
      | String d s'' =>
          if bool_decide (c = CR) && bool_decide (d = LF)
          then String LF (replace_crlf s'')
          else String c (replace_crlf s')
      | EmptyString => String c EmptyString
      end
  end.

(** [s.replace("\r", "\n")] *)
Fixpoint replace_cr (s : string) : string :=
  match s with
  | EmptyString => EmptyString
  | String c s' => String (if bool_decide (c = CR) then LF else c) (replace_cr s')
  end.

(** What universal-newlines mode does to decoded text:
    [s.replace("\r\n", "\n").replace("\r", "\n")]. *)
Definition translate_newlines (s : string) : string :=
  replace_cr (replace_crlf s).

End Py.

(* ===================================================================== *)
(** * [os.path] on POSIX ([posixpath]) *)
(* ===================================================================== *)

Module posixpath.

Definition sep : ascii := "/"%char.
Definition pardir : string := "..".
Definition curdir : string := ".".

Definition isabs (p : string) : bool := Py.startswith p "/".

(** [os.path.join(a, b)] *)
Definition join (a b : string) : string :=
  if Py.startswith b "/" then b
  else if bool_decide (a = "") || Py.endswith_char a sep then a +:+ b
  else a +:+ "/" +:+ b.

(** The loop of [normpath] over the components: empty and [.] components
    are dropped, [..] removes the component before it, unless there is
    none (kept on a relative path, dropped on an absolute one) or that
    one is itself [..].  [acc] is [new_comps], most recent first. *)
Fixpoint norm_comps (absolute : bool) (acc : list string)
         (comps : list string) : list string :=
  match comps with
  | [] => rev acc
  | comp :: rest =>
      if bool_decide (comp = "") || bool_decide (comp = curdir)
      then norm_comps absolute acc rest
      else if negb (bool_decide (comp = pardir))
              || (negb absolute && bool_decide (acc = []))
              || match acc with
                 | top :: _ => bool_decide (top = pardir)
                 | [] => false
                 end
      then norm_comps absolute (comp :: acc) rest
      else norm_comps absolute (tail acc) rest
  end.

(** The number of slashes [normpath] keeps in front: two for exactly
    two leading slashes, one for any other absolute path. *)
Definition initial_slashes (p : string) : nat :=
  if Py.startswith p "/" then
    if Py.startswith p "//" && negb (Py.startswith p "///")
    then 2%nat else 1%nat
  else 0%nat.

Fixpoint slashes (n : nat) : string :=
  match n with
  | O => ""
  | S n' => String sep (slashes n')
  end.

(** [os.path.normpath(p)] *)
Definition normpath (p : string) : string :=
  if bool_decide (p = "") then curdir
  else
    let n := initial_slashes p in
    let comps := norm_comps (negb (Nat.eqb n 0)) [] (Py.split sep p) in
    let q := slashes n +:+ Py.join "/" comps in
    if bool_decide (q = "") then curdir else q.

(** [os.path.abspath(p)], with [cwd] the value of [os.getcwd()]. *)
Definition abspath (cwd p : string) : string :=
  normpath (if isabs p then p else join cwd p).

End posixpath.

(* ===================================================================== *)
(** * The host of the plugin *)
(* ===================================================================== *)

(** The two output descriptors of a child process. *)
Inductive Fd := Stdout | Stderr.

(** What happens when a command is run: the spawn itself fails with an
    [OSError] (a missing working directory, a missing executable), or the
    child runs and exits, having written chunks of bytes to its two
    descriptors in some order. *)
Inductive ProcOutcome :=
| SpawnFailed (errno : Z)
| Exited (returncode : Z) (written : list (Fd * string)).

(** The operating system as the plugin sees it.  [os_spawn] is given the
    argument vector, the working directory, the environment the child
    inherits and the filesystem; a child can change the filesystem but not
    the environment of the bot process. *)
Record OS := {
  FS : Type;
  os_getcwd : string;
  os_path_exists : string -> FS -> bool;
  os_makedirs : string -> FS -> option Z * FS;
  os_spawn : list string -> option string -> gmap string string -> FS
             -> ProcOutcome * FS
}.

(** [errno.EEXIST], [errno.ENOENT], [errno.ENOTDIR] *)
Definition EEXIST : Z := 17.
Definition ENOENT : Z := 2.
Definition ENOTDIR : Z := 20.

(** A chat message; [frm] is the sender the attachment is streamed to. *)
Record Message := { frm : string; body : string }.

(** The object [send_stream_request] returns. *)
Record Stream := { to : string; content : string; name : string }.

(** Everything the plugin does that the outside can observe. *)
Inductive Event :=
| AddReaction (m : Message) (emoji : string)
| RemoveReaction (m : Message) (emoji : string)
| SendStream (s : Stream)
| LogInfo (text : string)
| LogException (text : string)
| WarnAdmins (text : string)
| Spawn (args : list string) (cwd : option string)
        (env : gmap string string) (outcome : ProcOutcome)
| Activated.

(** The exceptions that occur: [subprocess.CalledProcessError] with its
    [returncode], [cmd] and [output], [OSError] with its [errno], and
    [UnicodeDecodeError] for output of a child that is not text. *)
Inductive Exn :=
| CalledProcessError (returncode : Z) (cmd : list string) (output : string)
| OSError (errno : Z)
| UnicodeDecodeError.

Inductive Result (A : Type) :=
| Ok (a : A)
| Raise (e : Exn).
Arguments Ok {A} a.
Arguments Raise {A} e.

(** [subprocess.CompletedProcess]; [stdout] is the captured text. *)
Record CompletedProcess := {
  args : list string;
  returncode : Z;
  stdout : string
}.

(** Where [subprocess.run] sends the child's standard error. *)
Inductive StderrTo := INHERIT | STDOUT.

(** [self.config] once configured. *)
Record Config := {
  REPOS_ROOT : string;
  S3_KEY : string;
  S3_SECRET : string;
  S3_BUCKET : string;
  S3_REGION : string;
  projects : list (string * string)
}.

(** The bytes that arrive on the stdout pipe: what the child wrote to
    standard output, and to standard error too when that is redirected
    into it, in the order written. *)
Definition captured (stderr : StderrTo) (written : list (Fd * string)) : string :=
  String.concat ""
    (map snd
       (List.filter
          (fun c => match fst c, stderr with
                    | Stdout, _ => true
                    | Stderr, STDOUT => true
                    | Stderr, INHERIT => false
                    end)
          written)).

Section Plugin.

Context (os : OS).

(** The mutable state around the plugin: the filesystem and
    [os.environ]. *)
Record World := { fs : FS os; environ : gmap string string }.

(** The outcome of running a piece of the plugin: a value or an
    exception, the world it leaves and the events it emitted. *)
Record Run (A : Type) := {
  result : Result A;
  final : World;
  emitted : list Event
}.
Arguments result {A} r.
Arguments final {A} r.
Arguments emitted {A} r.

Definition M (A : Type) : Type := World -> Run A.

Definition ret {A} (a : A) : M A :=
  fun w => {| result := Ok a; final := w; emitted := [] |}.

Definition raise {A} (e : Exn) : M A :=
  fun w => {| result := Raise e; final := w; emitted := [] |}.

Definition bind {A B} (m : M A) (k : A -> M B) : M B :=
  fun w =>
    let r := m w in
    match result r with
    | Ok a =>
        let r' := k a (final r) in
        {| result := result r'; final := final r';
           emitted := emitted r ++ emitted r' |}
    | Raise e =>
        {| result := Raise e; final := final r; emitted := emitted r |}
    end.

(** [try: m  except <clause> as e: handler e]; [handler e] is [None]
    when the clause does not match [e], which then propagates. *)
Definition try_except {A} (m : M A) (handler : Exn -> option (M A)) : M A :=
  fun w =>
    let r := m w in
    match result r with
    | Ok _ => r
    | Raise e =>
        match handler e with
        | None => r
        | Some h =>
            let r' := h (final r) in
            {| result := result r'; final := final r';
               emitted := emitted r ++ emitted r' |}
        end
    end.

Definition emit (e : Event) : M unit :=
  fun w => {| result := Ok tt; final := w; emitted := [e] |}.

Notation "x <- c ;; k" := (bind c (fun x => k))
  (at level 100, c at next level, right associativity).
Notation "c ;; k" := (bind c (fun _ => k))
  (at level 100, right associativity).

(** [for x in l: body x] *)
Fixpoint for_each {A} (l : list A) (body : A -> M unit) : M unit :=
  match l with
  | [] => ret tt
  | x :: l' => body x ;; for_each l' body
  end.

(** ** The chat backend and the logger *)

Definition add_reaction (m : Message) (emoji : string) : M unit :=
  emit (AddReaction m emoji).
Definition remove_reaction (m : Message) (emoji : string) : M unit :=
  emit (RemoveReaction m emoji).
Definition send_stream_request (user content name : string) : M Stream :=
  let s := {| to := user; content := content; name := name |} in
  emit (SendStream s) ;; ret s.
Definition log_info (text : string) : M unit := emit (LogInfo text).
Definition log_exception (text : string) : M unit := emit (LogException text).
Definition warn_admins (text : string) : M unit := emit (WarnAdmins text).

(** ** [subprocess.run] and the filesystem calls *)

(** [subprocess.run(args, stdout=PIPE, stderr=..., universal_newlines=True,
    check=..., cwd=...)]: the child inherits [os.environ]; what it wrote
    is read to the end, decoded and its newlines translated, and only
    then is the exit status looked at. *)
Definition subprocess_run (args : list string) (stderr : StderrTo)
           (check : bool) (cwd : option string) : M CompletedProcess :=
  fun w =>
    let '(o, fs') := os_spawn os args cwd (environ w) (fs w) in
    let w' := {| fs := fs'; environ := environ w |} in
    let ev := [Spawn args cwd (environ w) o] in
    match o with
    | SpawnFailed errno =>
        {| result := Raise (OSError errno); final := w'; emitted := ev |}
    | Exited rc written =>
        match Py.bytes_decode (captured stderr written) with
        | None =>
            {| result := Raise UnicodeDecodeError; final := w'; emitted := ev |}
        | Some text =>
            let out := Py.translate_newlines text in
            if check && negb (rc =? 0)
            then {| result := Raise (CalledProcessError rc args out);
                    final := w'; emitted := ev |}
            else {| result := Ok {| args := args; returncode := rc;
                                    stdout := out |};
                    final := w'; emitted := ev |}
        end
    end.

(** [os.makedirs(path)] *)
Definition makedirs (path : string) : M unit :=
  fun w =>
    let '(err, fs') := os_makedirs os path (fs w) in
    let w' := {| fs := fs'; environ := environ w |} in
    match err with
    | Some errno => {| result := Raise (OSError errno); final := w'; emitted := [] |}
    | None => {| result := Ok tt; final := w'; emitted := [] |}
    end.

(** [os.path.exists(path)] *)
Definition path_exists (path : string) : M bool :=
  fun w => {| result := Ok (os_path_exists os path (fs w)); final := w; emitted := [] |}.

(** [os.environ[key] = value] *)
Definition environ_set (key value : string) : M unit :=
  fun w => {| result := Ok tt;
              final := {| fs := fs w; environ := <[key := value]> (environ w) |};
              emitted := [] |}.

(** ** The plugin *)

(** [Fastlane.run_subprocess] *)
Definition run_subprocess (args : list string) (cwd : option string)
  : M CompletedProcess :=
  subprocess_run args STDOUT true cwd.

(** [Fastlane.fetch_branch_from_origin] *)
Definition fetch_branch_from_origin (project_root branch_name : string) : M unit :=
  for_each
    [ ["fetch"; "-p"];
      ["checkout"; "-B"; branch_name; "origin/" +:+ branch_name; "-f"] ]
    (fun argv => run_subprocess ("git" :: argv) (Some project_root) ;; ret tt).

(** [Fastlane.find_fastlane_directory] *)
Definition find_fastlane_directory (project_root : string) : M string :=
  cp <- run_subprocess
          ["find"; project_root; "-maxdepth"; "2"; "-name"; "fastlane";
           "-type"; "d"; "-print"; "-quit"]
          (Some project_root) ;;
  let fastlane_directory := stdout cp in
  ret (posixpath.abspath (os_getcwd os)
         (posixpath.join fastlane_directory posixpath.pardir)).

(** [Fastlane.install_bundle] *)
Definition install_bundle (project_root : string) : M CompletedProcess :=
  run_subprocess ["bundle"; "install"] (Some project_root).

(** [Fastlane.build_fastlane] *)
Definition build_fastlane (project_root : string) : M CompletedProcess :=
  run_subprocess ["fastlane"; "deploy"] (Some project_root).

(** [Fastlane.check_fastlane_env] *)
Definition check_fastlane_env (project_root : string) : M CompletedProcess :=
  run_subprocess ["fastlane"; "env"] (Some project_root).

(** [Fastlane.get_project_root] *)
Definition get_project_root (cfg : Config) (project_name : string) : string :=
  REPOS_ROOT cfg +:+ project_name.

(** [Fastlane.setup_environments]: a copy of [os.environ] gets the four
    configured values, then [os.environ.update] writes the copy back. *)
Definition setup_environments (cfg : Config) : M unit :=
  fun w =>
    let environments := environ w in
    let environments := <["S3_KEY" := S3_KEY cfg]> environments in
    let environments := <["S3_SECRET" := S3_SECRET cfg]> environments in
    let environments := <["S3_BUCKET" := S3_BUCKET cfg]> environments in
    let environments := <["S3_REGION" := S3_REGION cfg]> environments in
    {| result := Ok tt;
       final := {| fs := fs w; environ := environments ∪ environ w |};
       emitted := [] |}.

(** [Fastlane.setup_repos] *)
Definition setup_repos (cfg : Config) : M unit :=
  try_except (makedirs (REPOS_ROOT cfg))
    (fun exc =>
       match exc with
       | OSError errno =>
           Some (if negb (errno =? EEXIST) then raise exc else ret tt)
       | _ => None
       end) ;;
  for_each (projects cfg)
    (fun project =>
       let project_name := fst project in
       present <- path_exists (posixpath.join (REPOS_ROOT cfg) project_name) ;;
       if negb present then
         run_subprocess ["git"; "clone"; snd project; project_name]
           (Some (REPOS_ROOT cfg)) ;;
         ret tt
       else ret tt).

(** [Fastlane.activate]; [None] is an unset configuration. *)
Definition activate (config : option Config) : M unit :=
  match config with
  | None =>
      let message := "Fastlane is not configured, please do so." in
      log_info message ;;
      warn_admins message
  | Some cfg =>
      setup_repos cfg ;;
      setup_environments cfg ;;
      emit Activated
  end.

(** [Fastlane.fastlane_env], the inspect-environment flow *)
Definition fastlane_env (cfg : Config) (message : Message)
           (project_name branch_name : string) : M (option Stream) :=
  add_reaction message "hourglass" ;;
  try_except
    (let project_root := get_project_root cfg project_name in
     fetch_branch_from_origin project_root branch_name ;;
     fastlane_parent_directory <- find_fastlane_directory project_root ;;
     install_bundle fastlane_parent_directory ;;
     completed_process <- check_fastlane_env fastlane_parent_directory ;;
     remove_reaction message "hourglass" ;;
     add_reaction message "white_check_mark" ;;
     s <- send_stream_request (frm message)
            (Py.str_encode (stdout completed_process)) "response-env.txt" ;;
     ret (Some s))
    (fun exc =>
       match exc with
       | CalledProcessError _ _ output =>
           Some (remove_reaction message "hourglass" ;;
                 add_reaction message "x" ;;
                 log_exception output ;;
                 send_stream_request (frm message)
                   (Py.str_encode output) "error-env.txt" ;;
                 ret None)
       | _ => None
       end).

(** [Fastlane.fastlane], the deploy flow *)
Definition fastlane (cfg : Config) (message : Message)
           (project_name environment branch_name : string) : M (option Stream) :=
  environ_set "ENV" environment ;;
  add_reaction message "hourglass" ;;
  try_except
    (let project_root := get_project_root cfg project_name in
     fetch_branch_from_origin project_root branch_name ;;
     fastlane_parent_directory <- find_fastlane_directory project_root ;;
     install_bundle fastlane_parent_directory ;;
     completed_process <- build_fastlane fastlane_parent_directory ;;
     remove_reaction message "hourglass" ;;
     add_reaction message "white_check_mark" ;;
     s <- send_stream_request (frm message)
            (Py.str_encode (stdout completed_process))
            ("response-" +:+ environment +:+ ".txt") ;;
     ret (Some s))
    (fun exc =>
       match exc with
       | CalledProcessError _ _ output =>
           Some (remove_reaction message "hourglass" ;;
                 add_reaction message "x" ;;
                 log_exception output ;;
                 send_stream_request (frm message)
                   (Py.str_encode output)
                   ("error-" +:+ environment +:+ ".txt") ;;
                 ret None)
       | _ => None
       end).

(** The chat commands: [arg_botcmd] converts [--project-name] with
    [str.lower] and passes the other arguments as they are. *)
Definition botcmd_fastlane_env (cfg : Config) (message : Message)
           (project_name branch_name : string) : M (option Stream) :=
  fastlane_env cfg message (Py.str_lower project_name) branch_name.

Definition botcmd_fastlane (cfg : Config) (message : Message)
           (project_name environment branch_name : string) : M (option Stream) :=
  fastlane cfg message (Py.str_lower project_name) environment branch_name.

End Plugin.

Arguments fs {os} w.
Arguments environ {os} w.
Arguments Build_World {os} fs environ.
Arguments result {os A} r.
Arguments final {os A} r.
Arguments emitted {os A} r.
Arguments Build_Run {os A} result final emitted.

(* ===================================================================== *)
(** * Vocabulary of the properties *)
(* ===================================================================== *)

(** All that a child wrote, both descriptors, in the order written. *)
Definition merged (written : list (Fd * string)) : string :=
  String.concat "" (map snd written).

(** The text captured from what a child wrote to both descriptors: the
    bytes decoded, newlines translated; none when they are not text. *)
Definition output_text (written : list (Fd * string)) : option string :=
  option_map Py.translate_newlines (Py.bytes_decode (merged written)).

(** The captured text of a child that exited. *)
Definition stdout_of (o : ProcOutcome) : string :=
  match o with
  | Exited _ written => default "" (output_text written)
  | SpawnFailed _ => ""
  end.

(** The failure a command's outcome stands for under [check=True] with
    the error stream merged in: none on a zero exit with output that is
    text. *)
Definition failure_of (cmd : list string) (o : ProcOutcome) : option Exn :=
  match o with
  | SpawnFailed errno => Some (OSError errno)
  | Exited rc written =>
      match output_text written with
      | None => Some UnicodeDecodeError
      | Some out =>
          if rc =? 0 then None else Some (CalledProcessError rc cmd out)
      end
  end.

(** The failures of the commands in a trace, in order. *)
Definition spawn_failures (tr : list Event) : list Exn :=
  omap (fun e => match e with
                 | Spawn cmd _ _ o => failure_of cmd o
                 | _ => None
                 end) tr.

(** The commands in a trace. *)
Definition spawns (tr : list Event) : list Event :=
  List.filter (fun e => match e with Spawn _ _ _ _ => true | _ => false end) tr.

(** What the chat sees of a trace: reactions and attachments. *)
Definition chat (tr : list Event) : list Event :=
  List.filter (fun e => match e with
                        | AddReaction _ _ | RemoveReaction _ _ | SendStream _ => true
                        | _ => false
                        end) tr.

(** The two flows. *)
Inductive Flow := Inspect | Deploy (environment : string).

Definition run_flow (os : OS) (cfg : Config) (f : Flow) (message : Message)
           (project_name branch_name : string) : M os (option Stream) :=
  match f with
  | Inspect => fastlane_env os cfg message project_name branch_name
  | Deploy environment =>
      fastlane os cfg message project_name environment branch_name
  end.

Definition tool_command (f : Flow) : list string :=
  match f with
  | Inspect => ["fastlane"; "env"]
  | Deploy _ => ["fastlane"; "deploy"]
  end.

Definition response_name (f : Flow) : string :=
  match f with
  | Inspect => "response-env.txt"
  | Deploy environment => "response-" +:+ environment +:+ ".txt"
  end.

Definition error_name (f : Flow) : string :=
  match f with
  | Inspect => "error-env.txt"
  | Deploy environment => "error-" +:+ environment +:+ ".txt"
  end.

(** The line terminator [-print] puts after a path. *)
Definition newline : string := String "010"%char EmptyString.

Fixpoint has_sep (s : string) : bool :=
  match s with
  | EmptyString => false
  | String c s' => bool_decide (c = posixpath.sep) || has_sep s'
  end.

(** The path has a character other than a slash: it is not empty and
    not the root written with any number of slashes. *)
Fixpoint has_component (p : string) : bool :=
  match p with
  | EmptyString => false
  | String c p' => negb (bool_decide (c = posixpath.sep)) || has_component p'
  end.

(** A directory entry name: not empty, not [.] or [..], no slash. *)
Definition is_name (c : string) : bool :=
  negb (bool_decide (c = ""))
  && negb (bool_decide (c = posixpath.curdir))
  && negb (bool_decide (c = posixpath.pardir))
  && negb (has_sep c).

(** The attachments a trace sends. *)
Definition attachments (tr : list Event) : list Stream :=
  omap (fun e => match e with SendStream s => Some s | _ => None end) tr.

(** The commands both flows run, in order, up to the release tool. *)
Definition flow_steps (os : OS) (tool : list string) (cfg : Config)
           (project_name branch_name : string) : M os CompletedProcess :=
  let project_root := get_project_root cfg project_name in
  bind os (fetch_branch_from_origin os project_root branch_name) (fun _ =>
  bind os (find_fastlane_directory os project_root) (fun d =>
  bind os (install_bundle os d) (fun _ =>
  run_subprocess os tool (Some d)))).

(** What a flow does once the steps have succeeded. *)
Definition report_success (os : OS) (message : Message) (response : string)
           (cp : CompletedProcess) : M os (option Stream) :=
  bind os (remove_reaction os message "hourglass") (fun _ =>
  bind os (add_reaction os message "white_check_mark") (fun _ =>
  bind os (send_stream_request os (frm message)
             (Py.str_encode (stdout cp)) response) (fun s =>
  ret os (Some s)))).

(** The [except subprocess.CalledProcessError] clause of a flow. *)
Definition report_failure (os : OS) (message : Message) (error : string)
           (exc : Exn) : option (M os (option Stream)) :=
  match exc with
  | CalledProcessError _ _ output =>
      Some (bind os (remove_reaction os message "hourglass") (fun _ =>
            bind os (add_reaction os message "x") (fun _ =>
            bind os (log_exception os output) (fun _ =>
            bind os (send_stream_request os (frm message)
                       (Py.str_encode output) error) (fun _ =>
            ret os None)))))
  | _ => None
  end.

(** What the steps of a flow leave behind when run from [w]: nothing the
    chat sees, one failure exactly when they raise, and the environment
    as it was, handed to every command. *)
Definition command_run {os : OS} {A : Type} (w : World os) (r : Run os A) : Prop :=
  chat (emitted r) = []
  /\ spawns (emitted r) = emitted r
  /\ spawn_failures (emitted r)
     = match result r with Ok _ => [] | Raise e => [e] end
  /\ environ (final r) = environ w
  /\ Forall (fun ev => match ev with
                       | Spawn _ _ env _ => env = environ w
                       | _ => True
                       end) (emitted r).

(** The world in which the steps of a flow start. *)
Definition start_world {os : OS} (f : Flow) (w : World os) : World os :=
  match f with
  | Inspect => w
  | Deploy environment =>
      {| fs := fs w; environ := <["ENV" := environment]> (environ w) |}
  end.

(** What a flow makes of the run of its steps. *)
Definition flow_outcome {os : OS} (message : Message) (response error : string)
           (rs : Run os CompletedProcess) : Run os (option Stream) :=
  match result rs with
  | Ok cp =>
      let s := {| to := frm message; content := stdout cp; name := response |} in
      {| result := Ok (Some s);
         final := final rs;
         emitted := AddReaction message "hourglass"
                    :: emitted rs
                    ++ [RemoveReaction message "hourglass";
                        AddReaction message "white_check_mark";
                        SendStream s] |}
  | Raise (CalledProcessError _ _ output) =>
      let s := {| to := frm message; content := output; name := error |} in
      {| result := Ok None;
         final := final rs;
         emitted := AddReaction message "hourglass"
                    :: emitted rs
                    ++ [RemoveReaction message "hourglass";
                        AddReaction message "x";
                        LogException output;
                        SendStream s] |}
  | Raise e =>
      {| result := Raise e;
         final := final rs;
         emitted := AddReaction message "hourglass" :: emitted rs |}
  end.

(** Where [setup_repos] looks for the clone of a project. *)
Definition project_dir (cfg : Config) (project : string * string) : string :=
  posixpath.join (REPOS_ROOT cfg) (fst project).

(** The clone command of a project. *)
Definition clone_command (project : string * string) : list string :=
  ["git"; "clone"; snd project; fst project].

(** A trace holds the clone command of a project, run in the repository
    root. *)
Definition cloned (cfg : Config) (project : string * string)
           (tr : list Event) : Prop :=
  exists env o,
    In (Spawn (clone_command project) (Some (REPOS_ROOT cfg)) env o) tr.

(** The first statement of [setup_repos]: create the repository root,
    an existing one is fine. *)
Definition ensure_root (os : OS) (cfg : Config) : M os unit :=
  try_except os (makedirs os (REPOS_ROOT cfg))
    (fun exc =>
       match exc with
       | OSError errno =>
           Some (if negb (errno =? EEXIST) then raise os exc else ret os tt)
       | _ => None
       end).

(** The loop of [setup_repos] over the given projects. *)
Definition clone_missing (os : OS) (cfg : Config)
           (ps : list (string * string)) : M os unit :=
  for_each os ps
    (fun project =>
       let project_name := fst project in
       bind os (path_exists os (posixpath.join (REPOS_ROOT cfg) project_name))
         (fun present =>
            if negb present then
              bind os (run_subprocess os
                         ["git"; "clone"; snd project; project_name]
                         (Some (REPOS_ROOT cfg)))
                (fun _ => ret os tt)
            else ret os tt)).

(** The commands in a trace, each with the directory it was run in. *)
Definition issued (tr : list Event) : list (list string * option string) :=
  omap (fun e => match e with
                 | Spawn cmd cwd _ _ => Some (cmd, cwd)
                 | _ => None
                 end) tr.

(** The commands of a flow, in order: three in the project root, two in
    the directory [d] that the locator returned. *)
Definition flow_plan (f : Flow) (project_root branch_name d : string)
  : list (list string * option string) :=
  [ (["git"; "fetch"; "-p"], Some project_root);
    (["git"; "checkout"; "-B"; branch_name; "origin/" +:+ branch_name; "-f"],
     Some project_root);
    (["find"; project_root; "-maxdepth"; "2"; "-name"; "fastlane";
      "-type"; "d"; "-print"; "-quit"],
     Some project_root);
    (["bundle"; "install"], Some d);
    (tool_command f, Some d) ].

(** An environment with the four object-storage values of the
    configuration. *)
Definition with_credentials (cfg : Config) (env : gmap string string)
  : gmap string string :=
  <["S3_REGION" := S3_REGION cfg]>
    (<["S3_BUCKET" := S3_BUCKET cfg]>
       (<["S3_SECRET" := S3_SECRET cfg]>
          (<["S3_KEY" := S3_KEY cfg]> env))).

(** A run that emits commands only and keeps the environment, which it
    hands to each of them. *)
Definition commands_only {os : OS} {A : Type} (w : World os) (r : Run os A)
  : Prop :=
  spawns (emitted r) = emitted r
  /\ environ (final r) = environ w
  /\ Forall (fun ev => match ev with
                       | Spawn _ _ env _ => env = environ w
                       | _ => True
                       end) (emitted r).

(** A run that stops at the first command that fails: it returns with no
    failed command, or raises the failure of its last command. *)
Definition stops_at_failure {os : OS} {A : Type} (r : Run os A) : Prop :=
  match result r with
  | Ok _ => spawn_failures (emitted r) = []
  | Raise e =>
      exists pre cmd cwd env o,
        emitted r = pre ++ [Spawn cmd cwd env o]
        /\ failure_of cmd o = Some e
        /\ spawn_failures pre = []
  end.

(* ===================================================================== *)
(** * Directory trees and the search command *)
(* ===================================================================== *)

(** A file, or a directory with its entries in the order the directory
    lists them. *)
#[warnings="-register-all"]
Inductive Node := File | Dir (entries : list (string * Node)).

Definition is_dir (n : Node) : bool :=
  match n with Dir _ => true | File => false end.

(** The entry of a directory with a given name. *)
Definition entry (name : string) (es : list (string * Node)) : option Node :=
  option_map snd (List.find (fun e => String.eqb (fst e) name) es).

(** What resolving a path gives: a file or directory, or an error. *)
Inductive Resolved := Found (n : Node) | NotFound (errno : Z).

(** Path resolution from [cur], below the directories [up]: an empty
    component and [.] stay, [..] goes up (the root is its own parent), a
    name goes to the entry of that name.  A component after a file is
    [ENOTDIR], a missing entry is [ENOENT]. *)
Fixpoint walk (up : list Node) (cur : Node) (comps : list string) : Resolved :=
  match comps with
  | [] => Found cur
  | c :: rest =>
      match cur with
      | File => NotFound ENOTDIR
      | Dir es =>
          if String.eqb c "" || String.eqb c posixpath.curdir
          then walk up cur rest
          else if String.eqb c posixpath.pardir then
            match up with
            | [] => walk [] cur rest
            | parent :: up' => walk up' parent rest
            end
          else
            match entry c es with
            | Some n => walk (cur :: up) n rest
            | None => NotFound ENOENT
            end
      end
  end.

(** What a path names in the tree with root entries [root], for a
    process whose working directory is the absolute path [cwd]. *)
Definition resolve (root : list (string * Node)) (cwd path : string) : Resolved :=
  if bool_decide (path = "") then NotFound ENOENT
  else walk [] (Dir root)
         (Py.split posixpath.sep
            (if posixpath.isabs path then path else cwd +:+ "/" +:+ path)).

(** The path the search prints for the entry [c] of a directory it
    prints as [a]. *)
Definition child_path (a c : string) : string :=
  if Py.endswith_char a posixpath.sep then a +:+ c else a +:+ "/" +:+ c.

(** The path printed for what lies at [rel] below the start point. *)
Definition below (start : string) (rel : list string) : string :=
  fold_left child_path rel start.

(** The name a start point is tested by: its last component, slashes
    at the end left out. *)
Definition base_name (p : string) : string :=
  List.last
    (List.filter (fun c => negb (String.eqb c "")) (Py.split posixpath.sep p))
    "/".

Definition named_dir (name : string) (e : string * Node) : bool :=
  String.eqb (fst e) name && is_dir (snd e).

(** The directories called [name] one and two levels below a directory
    with entries [es], each by its path from there, in the order the
    search visits them: an entry, then its own entries, then the next
    entry. *)
Definition matches (name : string) (es : list (string * Node))
  : list (list string) :=
  flat_map
    (fun e =>
       (if named_dir name e then [[fst e]] else [])
       ++ match snd e with
          | Dir es' =>
              flat_map (fun e' => if named_dir name e' then [[fst e; fst e']]
                                  else [])
                es'
          | File => []
          end)
    es.

Definition strerror (errno : Z) : string :=
  if errno =? ENOTDIR then "Not a directory" else "No such file or directory".

(** [find start -maxdepth 2 -name name -type d -print -quit] run with
    working directory [cwd] on a tree without symbolic links, all of it
    readable: a start point that does not resolve is reported on
    standard error, with exit status 1; otherwise the start point is
    tested first, then what lies below it, and the first directory
    called [name] is printed, if there is one. *)
Definition gnu_find (root : list (string * Node)) (cwd start name : string)
  : ProcOutcome :=
  match resolve root cwd start with
  | NotFound errno =>
      Exited 1 [(Stderr, "find: '" +:+ start +:+ "': " +:+ strerror errno
                         +:+ newline)]
  | Found n =>
      match (if String.eqb (base_name start) name && is_dir n
             then [start] else [])
            ++ match n with
               | Dir es => map (below start) (matches name es)
               | File => []
               end
      with
      | hit :: _ => Exited 0 [(Stdout, hit +:+ newline)]
      | [] => Exited 0 []
      end
  end.

(** The search of the locator. *)
Definition find_command (project_root : string) : list string :=
  ["find"; project_root; "-maxdepth"; "2"; "-name"; "fastlane";
   "-type"; "d"; "-print"; "-quit"].

(** What the locator makes of the outcome of its search. *)
Definition locator_answer (os : OS) (o : ProcOutcome) : string :=
  posixpath.abspath (os_getcwd os)
    (posixpath.join (stdout_of o) posixpath.pardir).

(** ** Text and the case of letters *)

Fixpoint has_cr (s : string) : bool :=
  match s with
  | EmptyString => false
  | String c s' => bool_decide (c = Py.CR) || has_cr s'
  end.

(** Bytes that are text and hold no carriage return: what is captured
    of them is the bytes themselves. *)
Definition plain_text (s : string) : bool :=
  Py.valid_utf8 s && negb (has_cr s).

(** One character is a letter A to Z and the other is the same letter
    in the other case, or the two are the same character. *)
Definition same_letter (c d : ascii) : bool :=
  let m := N_of_ascii c in
  let n := N_of_ascii d in
  bool_decide (c = d)
  || ((65 <=? m)%N && (m <=? 90)%N && (n =? m + 32)%N)
  || ((65 <=? n)%N && (n <=? 90)%N && (m =? n + 32)%N).

(** Two spellings that differ in the case of letters only. *)
Fixpoint same_spelling (a b : string) : bool :=
  match a, b with
  | EmptyString, EmptyString => true
  | String c a', String d b' => same_letter c d && same_spelling a' b'
  | _, _ => false
  end.

(** The name holds a letter A to Z. *)
Fixpoint has_upper (s : string) : bool :=
  match s with
  | EmptyString => false
  | String c s' => Py.byte_in 65 90 c || has_upper s'
  end.

(* ===================================================================== *)
(** * A small host to run the plugin on *)
(* ===================================================================== *)

(** The commands in a trace, as argument vectors. *)
Definition commands (tr : list Event) : list (list string) :=
  omap (fun e => match e with Spawn cmd _ _ _ => Some cmd | _ => None end) tr.

(** The filesystem of the small host is a directory tree, given by the
    entries of its root; the bot runs in [/srv/errbot]. *)
Definition demo_cwd : string := "/srv/errbot".

Definition demo_exists (path : string) (fs : list (string * Node)) : bool :=
  match resolve fs demo_cwd path with
  | Found _ => true
  | NotFound _ => false
  end.

(** The directory with [n] as its entry [name]. *)
Definition set_entry (name : string) (n : Node) (es : list (string * Node))
  : list (string * Node) :=
  (name, n) :: List.filter (fun e => negb (String.eqb (fst e) name)) es.

(** The tree with [new] at the path with components [comps], missing
    directories on the way made. *)
Fixpoint put (comps : list string) (new : Node) (es : list (string * Node))
  : list (string * Node) :=
  match comps with
  | [] => es
  | [c] => set_entry c new es
  | c :: rest =>
      set_entry c
        (Dir (put rest new
                (match entry c es with
                 | Some (Dir es') => es'
                 | _ => []
                 end)))
        es
  end.

(** A file lies on the way along [comps]. *)
Fixpoint blocked (comps : list string) (es : list (string * Node)) : bool :=
  match comps with
  | [] => false
  | c :: rest =>
      match entry c es with
      | Some File => true
      | Some (Dir es') => blocked rest es'
      | None => false
      end
  end.

(** The names on the way from the root to [path], taken from [cwd]. *)
Definition demo_comps (cwd path : string) : list string :=
  List.filter (fun c => negb (String.eqb c ""))
    (Py.split posixpath.sep (posixpath.abspath cwd path)).

(** [os.makedirs]: [EEXIST] for a path that exists, [ENOENT] for the
    empty path, [ENOTDIR] when a file is on the way. *)
Definition demo_makedirs (path : string) (fs : list (string * Node))
  : option Z * list (string * Node) :=
  match resolve fs demo_cwd path with
  | Found _ => (Some EEXIST, fs)
  | NotFound _ =>
      if bool_decide (path = "") then (Some ENOENT, fs)
      else if blocked (demo_comps demo_cwd path) fs then (Some ENOTDIR, fs)
      else (None, put (demo_comps demo_cwd path) (Dir []) fs)
  end.

(** A remote that does not exist, and one whose server greets in
    Latin-1. *)
Definition demo_gone : string := "git@example.com:gone.git".
Definition demo_latin1 : string := "git@example.com:latin1.git".

(** The working tree a clone brings. *)
Definition demo_checkout : Node :=
  Dir [("Gemfile", File); ("fastlane", Dir [("Fastfile", File)])].

(** What the commands of the plugin do on the small host, run in the
    directory [cwd]: a clone of [demo_gone] fails, a clone onto a path
    that exists fails, any other clone brings [demo_checkout]; a checkout
    of [no-such-branch] fails; [find] is [gnu_find]; the release tool
    prints the [ENV] it sees.  [None] is a program that is not there. *)
Definition demo_command (args : list string) (cwd : string)
           (env : gmap string string) (fs : list (string * Node))
  : option (ProcOutcome * list (string * Node)) :=
  let arg n := nth n args "" in
  if String.eqb (arg 0%nat) "git" then
    if String.eqb (arg 1%nat) "clone" then
      if String.eqb (arg 2%nat) demo_gone
      then Some (Exited 128 [(Stderr, "fatal: repository not found" +:+ newline)],
                 fs)
      else
        match resolve fs cwd (arg 3%nat) with
        | Found _ =>
            Some (Exited 128
                    [(Stderr, "fatal: destination path '" +:+ arg 3%nat
                              +:+ "' already exists" +:+ newline)],
                  fs)
        | NotFound _ =>
            Some (Exited 0
                    ((Stderr, "Cloning into '" +:+ arg 3%nat +:+ "'..."
                              +:+ newline)
                     :: if String.eqb (arg 2%nat) demo_latin1
                        then [(Stderr, "remote: caf" +:+ String "233" newline)]
                        else []),
                  put (demo_comps cwd (arg 3%nat)) demo_checkout fs)
        end
    else if String.eqb (arg 1%nat) "checkout" then
      if String.eqb (arg 3%nat) "no-such-branch"
      then Some (Exited 1 [(Stderr, "fatal: invalid reference" +:+ newline)], fs)
      else Some (Exited 0 [(Stderr, "Reset branch '" +:+ arg 3%nat +:+ "'"
                                    +:+ newline)],
                 fs)
    else Some (Exited 0 [], fs)
  else if String.eqb (arg 0%nat) "find" then
    Some (gnu_find fs cwd (arg 1%nat) (arg 5%nat), fs)
  else if String.eqb (arg 0%nat) "bundle" then
    Some (Exited 0 [(Stdout, "Bundle complete!" +:+ newline)], fs)
  else if String.eqb (arg 0%nat) "fastlane" then
    Some (Exited 0 [(Stderr, "fastlane " +:+ arg 1%nat +:+ newline);
                    (Stdout, "ENV=" +:+ default "" (env !! "ENV") +:+ newline)],
          fs)
  else None.

(** A command is not spawned when its working directory does not
    resolve to a directory, or when its program is not there. *)
Definition demo_spawn (args : list string) (cwd : option string)
           (env : gmap string string) (fs : list (string * Node))
  : ProcOutcome * list (string * Node) :=
  let dir := default posixpath.curdir cwd in
  match resolve fs demo_cwd dir with
  | Found (Dir _) =>
      match demo_command args
              (if posixpath.isabs dir then dir else demo_cwd +:+ "/" +:+ dir)
              env fs with
      | Some r => r
      | None => (SpawnFailed ENOENT, fs)
      end
  | Found File => (SpawnFailed ENOTDIR, fs)
  | NotFound errno => (SpawnFailed errno, fs)
  end.

Definition demo_os : OS :=
  {| FS := list (string * Node);
     os_getcwd := demo_cwd;
     os_path_exists := demo_exists;
     os_makedirs := demo_makedirs;
     os_spawn := demo_spawn |}.

(** Two projects under [/repos/]. *)
Definition demo_cfg : Config :=
  {| REPOS_ROOT := "/repos/";
     S3_KEY := "key"; S3_SECRET := "secret";
     S3_BUCKET := "bucket"; S3_REGION := "eu-west-1";
     projects := [("app", "git@example.com:app.git");
                  ("shop", "git@example.com:shop.git")] |}.

(** The same with the root written without its final slash. *)
Definition demo_cfg_no_slash : Config :=
  {| REPOS_ROOT := "/repos";
     S3_KEY := "key"; S3_SECRET := "secret";
     S3_BUCKET := "bucket"; S3_REGION := "eu-west-1";
     projects := [("app", "git@example.com:app.git")] |}.

(** Two projects, the first with a remote that does not exist. *)
Definition demo_cfg_gone : Config :=
  {| REPOS_ROOT := "/repos/";
     S3_KEY := "key"; S3_SECRET := "secret";
     S3_BUCKET := "bucket"; S3_REGION := "eu-west-1";
     projects := [("app", demo_gone);
                  ("shop", "git@example.com:shop.git")] |}.

(** The directory the bot runs in. *)
Definition demo_srv : string * Node := ("srv", Dir [("errbot", Dir [])]).

(** A host with no repository root, one with [app] cloned, one with both
    projects cloned. *)
Definition demo_empty : World demo_os := @Build_World demo_os [demo_srv] ∅.

Definition demo_app_cloned : World demo_os :=
  @Build_World demo_os
    [demo_srv; ("repos", Dir [("app", demo_checkout)])]
    ∅.

Definition demo_cloned : World demo_os :=
  @Build_World demo_os
    [demo_srv; ("repos", Dir [("app", demo_checkout); ("shop", demo_checkout)])]
    ∅.

Definition demo_message : Message := {| frm := "alice"; body := "!fastlane" |}.

(** A host with [app] cloned but without a [fastlane] directory in it. *)
Definition demo_bare : World demo_os :=
  @Build_World demo_os
    [demo_srv; ("repos", Dir [("app", Dir [("Gemfile", File)])])]
    ∅.

(** A host with three more clones: [mobile], whose one [fastlane]
    directory lies in [ios], after a file called [fastlane]; a project
    that is itself called [fastlane], with its one [fastlane] directory
    in [ios]; and, under the directory the bot runs in, a clone of [app]
    for a repository root written as the relative path [repos/]. *)
Definition demo_mobile : World demo_os :=
  @Build_World demo_os
    [("srv", Dir [("errbot", Dir [("repos", Dir [("app", demo_checkout)])])]);
     ("repos",
      Dir [("mobile",
            Dir [("fastlane", File);
                 ("android", Dir [("app", Dir [])]);
                 ("ios", Dir [("Gemfile", File);
                              ("fastlane", Dir [("Fastfile", File)])])]);
           ("fastlane",
            Dir [("README.md", File);
                 ("ios", Dir [("fastlane", Dir [("Fastfile", File)])])])])]
    ∅.

(* ===================================================================== *)
(** * Examples *)
(* ===================================================================== *)

Example lower_example : Py.str_lower "My-App_2" = "my-app_2".
Proof. reflexivity. Qed.

Example split_example : Py.split "/" "/a//b/" = [""; "a"; ""; "b"; ""].
Proof. reflexivity. Qed.

(** Bytes the strict decoder takes and bytes it refuses: a lone or
    missing continuation byte, the overlong forms, a surrogate, a value
    above U+10FFFF. *)
Example valid_utf8_examples :
  map Py.valid_utf8
    [ "caf" +:+ String "195" (String "169" "");
      String "237" (String "159" (String "191" ""));
      String "239" (String "191" (String "191" ""));
      String "244" (String "143" (String "191" (String "191" "")));
      String "000" "" ]
  = [true; true; true; true; true]
  /\ map Py.valid_utf8
       [ String "255" "";
         String "128" "";
         String "194" "";
         String "226" (String "130" "");
         String "192" (String "128" "");
         String "193" (String "191" "");
         String "224" (String "159" (String "191" ""));
         String "237" (String "160" (String "128" ""));
         String "240" (String "143" (String "191" (String "191" "")));
         String "244" (String "144" (String "128" (String "128" "")));
         String "245" (String "128" (String "128" (String "128" "")));
         String "225" (String "128" (String "192" "")) ]
     = repeat false 12.
Proof. split; reflexivity. Qed.

Example translate_newlines_example :
  Py.translate_newlines
    ("a" +:+ String Py.CR (String Py.LF "b") +:+ String Py.CR "c"
     +:+ String Py.CR (String Py.CR (String Py.LF "d")) +:+ String Py.LF "")
  = "a" +:+ String Py.LF "b" +:+ String Py.LF "c"
    +:+ String Py.LF (String Py.LF "d") +:+ String Py.LF "".
Proof. reflexivity. Qed.

Example join_examples :
  posixpath.join "/repos" "app" = "/repos/app"
  /\ posixpath.join "/repos/" "app" = "/repos/app"
  /\ posixpath.join "/repos" "/app" = "/app"
  /\ posixpath.join "" "app" = "app".
Proof. repeat split. Qed.

Example normpath_examples :
  posixpath.normpath "/a/b/../c/./d//" = "/a/c/d"
  /\ posixpath.normpath "a/../.." = ".."
  /\ posixpath.normpath "/.." = "/"
  /\ posixpath.normpath "//a" = "//a"
  /\ posixpath.normpath "///a" = "/a"
  /\ posixpath.normpath "" = ".".
Proof. repeat split. Qed.

(** The search on the host with [mobile].  A start point called
    [fastlane] is printed as it was given; below a start point a slash
    is put unless the start point ends in one; a file called [fastlane]
    is passed; a directory three levels down is not reached; an entry is
    visited before the entry after it is looked into; a start point that
    does not resolve makes the search exit with status 1. *)
Example gnu_find_examples :
  let find cwd start := gnu_find (fs demo_mobile) cwd start "fastlane" in
  find "/" "/repos/fastlane" = Exited 0 [(Stdout, "/repos/fastlane" +:+ newline)]
  /\ find "/" "/repos/fastlane/"
     = Exited 0 [(Stdout, "/repos/fastlane/" +:+ newline)]
  /\ find "/" "/repos/fastlane/."
     = Exited 0 [(Stdout, "/repos/fastlane/./ios/fastlane" +:+ newline)]
  /\ find "/" "/repos/mobile"
     = Exited 0 [(Stdout, "/repos/mobile/ios/fastlane" +:+ newline)]
  /\ find "/" "/repos/mobile/"
     = Exited 0 [(Stdout, "/repos/mobile/ios/fastlane" +:+ newline)]
  /\ find "/" "/repos/mobile//"
     = Exited 0 [(Stdout, "/repos/mobile//ios/fastlane" +:+ newline)]
  /\ find "/repos/mobile" "."
     = Exited 0 [(Stdout, "./ios/fastlane" +:+ newline)]
  /\ find "/" "/repos/mobile/fastlane" = Exited 0 []
  /\ find "/" "/" = Exited 0 [(Stdout, "/repos/fastlane" +:+ newline)]
  /\ find "/" "/srv" = Exited 0 []
  /\ find "/" "/repos" = Exited 0 [(Stdout, "/repos/fastlane" +:+ newline)]
  /\ find "/" "/nowhere"
     = Exited 1 [(Stderr, "find: '/nowhere': No such file or directory"
                          +:+ newline)]
  /\ find "/" "/repos/mobile/fastlane/x"
     = Exited 1 [(Stderr, "find: '/repos/mobile/fastlane/x': Not a directory"
                          +:+ newline)]
  /\ find "/repos/mobile" ""
     = Exited 1 [(Stderr, "find: '': No such file or directory" +:+ newline)].
Proof. vm_compute. repeat split; reflexivity. Qed.

(* ===================================================================== *)
(** * The process executor *)
(* ===================================================================== *)

Lemma captured_STDOUT written : captured STDOUT written = merged written.
Proof.
  unfold captured, merged. f_equal. f_equal.
  induction written as [|[[] s] l IH]; simpl; [reflexivity | |]; now rewrite IH.
Qed.

Lemma captured_INHERIT_drops_stderr s t :
  captured INHERIT [(Stdout, s); (Stderr, t)] = s.
Proof. reflexivity. Qed.

Section Executor.

Context (os : OS).

Lemma run_subprocess_run args cwd (w : World os) :
  run_subprocess os args cwd w =
  let '(o, fs') := os_spawn os args cwd (environ w) (fs w) in
  {| result := match failure_of args o with
               | Some e => Raise e
               | None => Ok {| args := args; returncode := 0;
                               stdout := stdout_of o |}
               end;
     final := {| fs := fs'; environ := environ w |};
     emitted := [Spawn args cwd (environ w) o] |}.
Proof.
  unfold run_subprocess, subprocess_run.
  destruct (os_spawn os args cwd (environ w) (fs w)) as [[errno|rc written] fs'];
    cbn [failure_of stdout_of]; [reflexivity|].
  rewrite captured_STDOUT. unfold output_text.
  destruct (Py.bytes_decode (merged written)) as [text|];
    cbn [option_map default]; [|reflexivity].
  destruct (Z.eqb_spec rc 0) as [->|Hrc]; reflexivity.
Qed.

(** C2, as amended: the executor reads both streams of the child merged,
    in the order written.  It raises [OSError] when the child cannot be
    spawned and [UnicodeDecodeError] when what the child wrote is not
    text, whatever the exit status; otherwise it raises
    [CalledProcessError] with the exit status and the text exactly when
    the child exits non-zero, and returns the completed process with the
    text on a zero exit. *)
Theorem run_subprocess_contract args cwd (w : World os) :
  let o := fst (os_spawn os args cwd (environ w) (fs w)) in
  let r := run_subprocess os args cwd w in
  emitted r = [Spawn args cwd (environ w) o]
  /\ final r = {| fs := snd (os_spawn os args cwd (environ w) (fs w));
                  environ := environ w |}
  /\ result r =
     match o with
     | SpawnFailed errno => Raise (OSError errno)
     | Exited rc written =>
         match Py.bytes_decode (merged written) with
         | None => Raise UnicodeDecodeError
         | Some text =>
             if rc =? 0
             then Ok {| args := args; returncode := 0;
                        stdout := Py.translate_newlines text |}
             else Raise (CalledProcessError rc args
                           (Py.translate_newlines text))
         end
     end
  /\ ((exists rc cmd out, result r = Raise (CalledProcessError rc cmd out))
      <-> (exists rc written,
              o = Exited rc written /\ rc <> 0
              /\ Py.valid_utf8 (merged written) = true))
  /\ ((exists cp, result r = Ok cp)
      <-> (exists written,
              o = Exited 0 written /\ Py.valid_utf8 (merged written) = true)).
Proof.
  cbv zeta. rewrite run_subprocess_run.
  destruct (os_spawn os args cwd (environ w) (fs w)) as [[errno|rc written] fs'];
    cbn [fst snd result final emitted failure_of stdout_of].
  - split; [reflexivity|]. split; [reflexivity|]. split; [reflexivity|].
    split; (split; [intros (? & H) | intros (? & H)]);
      [destruct H as (? & ? & [=]) | destruct H as (? & [=] & _)
       | discriminate H | destruct H as ([=] & _)].
  - split; [reflexivity|]. split; [reflexivity|].
    unfold output_text, Py.bytes_decode.
    destruct (Py.valid_utf8 (merged written)) eqn:Hv; cbn [option_map default].
    + destruct (Z.eqb_spec rc 0) as [->|Hrc].
      * split; [reflexivity|]. split; split.
        -- intros (? & ? & ? & [=]).
        -- intros (? & ? & [= <- _] & Hne & _). lia.
        -- intros _. eauto.
        -- intros _. eauto.
      * split; [reflexivity|]. split; split.
        -- intros _. eauto.
        -- intros _. eauto.
        -- intros (? & [=]).
        -- intros (? & [= -> _] & _). lia.
    + split; [reflexivity|]. split; split.
      * intros (? & ? & ? & [=]).
      * intros (? & ? & [= _ <-] & _ & Hv'). congruence.
      * intros (? & [=]).
      * intros (? & [= _ <-] & Hv'). congruence.
Qed.

End Executor.

Lemma failure_of_Exited cmd o :
  failure_of cmd o = None ->
  exists written out, o = Exited 0 written /\ output_text written = Some out.
Proof.
  destruct o as [errno|rc written]; cbn [failure_of]; [discriminate|].
  destruct (output_text written) as [out|] eqn:Hout; [|discriminate].
  destruct (Z.eqb_spec rc 0) as [->|_]; [|discriminate].
  intros _. now exists written, out.
Qed.

Lemma failure_of_None cmd o :
  failure_of cmd o = None -> exists written, o = Exited 0 written.
Proof. intros H. apply failure_of_Exited in H as (written & _ & -> & _). eauto. Qed.

(* ===================================================================== *)
(** * Running computations *)
(* ===================================================================== *)

Section Running.

Context (os : OS).

Lemma run_eta {A} (r : Run os A) :
  {| result := result r; final := final r; emitted := emitted r |} = r.
Proof. now destruct r. Qed.

(** [bind] is associative on every world. *)
Lemma bind_assoc {A B C} (m : M os A) (k : A -> M os B) (h : B -> M os C) w :
  bind os (bind os m k) h w = bind os m (fun a => bind os (k a) h) w.
Proof.
  unfold bind. destruct (result (m w)) as [a|e]; simpl; [|reflexivity].
  destruct (result (k a (final (m w)))) as [b|e]; simpl; [|reflexivity].
  now rewrite app_assoc.
Qed.

End Running.

(* ===================================================================== *)
(** * The repository synchronizer *)
(* ===================================================================== *)

Section Synchronizer.

Context (os : OS).

(** One command whose completed process is dropped. *)
Lemma run_step args cwd (w : World os) :
  bind os (run_subprocess os args cwd) (fun _ => ret os tt) w =
  let '(o, fs') := os_spawn os args cwd (environ w) (fs w) in
  {| result := match failure_of args o with
               | Some e => Raise e
               | None => Ok tt
               end;
     final := {| fs := fs'; environ := environ w |};
     emitted := [Spawn args cwd (environ w) o] |}.
Proof.
  unfold bind. rewrite run_subprocess_run.
  destruct (os_spawn os args cwd (environ w) (fs w)) as [o fs'].
  cbn [result final emitted].
  destruct (failure_of args o); reflexivity.
Qed.

Lemma run_step_last args cwd (w : World os) :
  bind os (bind os (run_subprocess os args cwd) (fun _ => ret os tt))
    (fun _ => ret os tt) w
  = bind os (run_subprocess os args cwd) (fun _ => ret os tt) w.
Proof.
  unfold bind at 1.
  destruct (bind os (run_subprocess os args cwd) (fun _ => ret os tt) w)
    as [[[]|e] w' tr]; cbn [result final emitted ret]; [|reflexivity].
  now rewrite app_nil_r.
Qed.

Lemma fetch_branch_from_origin_run root branch (w : World os) :
  fetch_branch_from_origin os root branch w =
  let fetch := ["git"; "fetch"; "-p"] in
  let checkout :=
    ["git"; "checkout"; "-B"; branch; "origin/" +:+ branch; "-f"] in
  let '(o1, fs1) := os_spawn os fetch (Some root) (environ w) (fs w) in
  match failure_of fetch o1 with
  | Some e =>
      {| result := Raise e;
         final := {| fs := fs1; environ := environ w |};
         emitted := [Spawn fetch (Some root) (environ w) o1] |}
  | None =>
      let '(o2, fs2) := os_spawn os checkout (Some root) (environ w) fs1 in
      {| result := match failure_of checkout o2 with
                   | Some e => Raise e
                   | None => Ok tt
                   end;
         final := {| fs := fs2; environ := environ w |};
         emitted := [Spawn fetch (Some root) (environ w) o1;
                     Spawn checkout (Some root) (environ w) o2] |}
  end.
Proof.
  unfold fetch_branch_from_origin, for_each.
  unfold bind at 1. rewrite run_step. cbv zeta.
  destruct (os_spawn os ["git"; "fetch"; "-p"] (Some root) (environ w) (fs w))
    as [o1 fs1].
  cbn [result final emitted].
  destruct (failure_of _ o1) as [e1|]; [reflexivity|].
  rewrite run_step_last, run_step. cbn [fs environ].
  destruct (os_spawn os _ (Some root) (environ w) fs1) as [o2 fs2].
  reflexivity.
Qed.

(** C3: the synchronizer runs [git fetch -p] and then
    [git checkout -B <branch> origin/<branch> -f], both in the
    repository root; when the fetch fails the checkout is not run and
    the failure of the fetch reaches the caller. *)
Theorem fetch_branch_from_origin_steps root branch (w : World os) :
  let fetch := ["git"; "fetch"; "-p"] in
  let checkout :=
    ["git"; "checkout"; "-B"; branch; "origin/" +:+ branch; "-f"] in
  let r := fetch_branch_from_origin os root branch w in
  let '(o1, fs1) := os_spawn os fetch (Some root) (environ w) (fs w) in
  let '(o2, fs2) := os_spawn os checkout (Some root) (environ w) fs1 in
  match failure_of fetch o1 with
  | Some e =>
      result r = Raise e
      /\ emitted r = [Spawn fetch (Some root) (environ w) o1]
      /\ fs (final r) = fs1
  | None =>
      result r = match failure_of checkout o2 with
                 | Some e => Raise e
                 | None => Ok tt
                 end
      /\ emitted r = [Spawn fetch (Some root) (environ w) o1;
                      Spawn checkout (Some root) (environ w) o2]
      /\ fs (final r) = fs2
  end.
Proof.
  cbv zeta. rewrite fetch_branch_from_origin_run. cbv zeta.
  destruct (os_spawn os ["git"; "fetch"; "-p"] (Some root) (environ w) (fs w))
    as [o1 fs1].
  destruct (os_spawn os _ (Some root) (environ w) fs1) as [o2 fs2].
  destruct (failure_of _ o1) as [e1|]; [auto|].
  destruct (failure_of _ o2) as [e2|]; auto.
Qed.

End Synchronizer.

(* ===================================================================== *)
(** * The object-storage credentials in the environment *)
(* ===================================================================== *)

Lemma insert_union_self (k v : string) (m e : gmap string string) :
  m ∪ e = m -> <[k := v]> m ∪ e = <[k := v]> m.
Proof.
  intros H. apply map_eq. intros i.
  rewrite lookup_union.
  destruct (decide (k = i)) as [->|Hne].
  - rewrite lookup_insert_eq. now destruct (e !! i).
  - rewrite lookup_insert_ne by assumption.
    rewrite <- lookup_union. now rewrite H.
Qed.

Section Credentials.

Context (os : OS).

Lemma setup_environments_environ cfg (w : World os) :
  environ (final (setup_environments os cfg w)) =
  <["S3_REGION" := S3_REGION cfg]>
    (<["S3_BUCKET" := S3_BUCKET cfg]>
       (<["S3_SECRET" := S3_SECRET cfg]>
          (<["S3_KEY" := S3_KEY cfg]> (environ w)))).
Proof.
  unfold setup_environments. simpl.
  repeat apply insert_union_self.
  apply map_eq. intros i. rewrite lookup_union. now destruct (environ w !! i).
Qed.

(** C10: [setup_environments] sets the four object-storage variables to
    their configured values and changes nothing else: no other
    variable, not the filesystem, and it emits nothing. *)
Theorem setup_environments_frame cfg (w : World os) :
  let r := setup_environments os cfg w in
  result r = Ok tt
  /\ emitted r = []
  /\ fs (final r) = fs w
  /\ environ (final r) !! "S3_KEY" = Some (S3_KEY cfg)
  /\ environ (final r) !! "S3_SECRET" = Some (S3_SECRET cfg)
  /\ environ (final r) !! "S3_BUCKET" = Some (S3_BUCKET cfg)
  /\ environ (final r) !! "S3_REGION" = Some (S3_REGION cfg)
  /\ forall k : string,
      k ∉ ["S3_KEY"; "S3_SECRET"; "S3_BUCKET"; "S3_REGION"] ->
      environ (final r) !! k = environ w !! k.
Proof.
  cbv zeta. rewrite setup_environments_environ.
  split; [reflexivity|]. split; [reflexivity|]. split; [reflexivity|].
  split; [now simplify_map_eq|]. split; [now simplify_map_eq|].
  split; [now simplify_map_eq|]. split; [now simplify_map_eq|].
  intros k Hk.
  rewrite !lookup_insert_ne; [reflexivity | | | |];
    intros <-; apply Hk; set_solver.
Qed.

End Credentials.

(* ===================================================================== *)
(** * Paths *)
(* ===================================================================== *)

Section PathFacts.

Lemma app_String c (a b : string) : String c a +:+ b = String c (a +:+ b).
Proof. reflexivity. Qed.

Lemma app_empty_r (a : string) : a +:+ "" = a.
Proof. induction a as [|c a IH]; [reflexivity|]. now rewrite app_String, IH. Qed.

Lemma str_app_assoc (a b c : string) : (a +:+ b) +:+ c = a +:+ (b +:+ c).
Proof.
  induction a as [|x a IH]; [reflexivity|]. now rewrite !app_String, IH.
Qed.

Lemma split_nonempty sep s : Py.split sep s <> [].
Proof.
  destruct s as [|c s]; simpl; [discriminate|].
  destruct (bool_decide (c = sep)); [discriminate|].
  destruct (Py.split sep s); discriminate.
Qed.

Lemma split_app_sep sep (a b : string) :
  Py.split sep (a +:+ String sep b) = Py.split sep a ++ Py.split sep b.
Proof.
  induction a as [|c a IH].
  - change ("" +:+ String sep b) with (String sep b). simpl.
    now rewrite bool_decide_eq_true_2.
  - rewrite app_String. simpl. rewrite IH.
    destruct (bool_decide (c = sep)); [reflexivity|].
    destruct (Py.split sep a) as [|h t] eqn:E; [|reflexivity].
    now apply split_nonempty in E.
Qed.

Lemma split_no_sep (c : string) :
  has_sep c = false -> Py.split posixpath.sep c = [c].
Proof.
  induction c as [|x c IH]; simpl; [reflexivity|].
  intros [Hx Hc]%orb_false_iff. rewrite Hx, (IH Hc). reflexivity.
Qed.

Lemma is_name_no_sep c : is_name c = true -> has_sep c = false.
Proof.
  unfold is_name. intros [_ H]%andb_true_iff. now apply negb_true_iff in H.
Qed.

Lemma last_char_snoc (a : string) c :
  Py.last_char (a +:+ String c "") = Some c.
Proof.
  induction a as [|x a IH]; [reflexivity|].
  rewrite app_String. simpl. rewrite IH.
  destruct (a +:+ String c "") eqn:E; [|reflexivity].
  destruct a; discriminate.
Qed.

(** Joining [..] to a path that ends in a character other than a slash
    puts a slash between the two. *)
Lemma join_pardir (a : string) c :
  c <> posixpath.sep ->
  posixpath.join (a +:+ String c "") posixpath.pardir
  = (a +:+ String c "") +:+ String posixpath.sep "..".
Proof.
  intros Hc. unfold posixpath.join.
  change (Py.startswith posixpath.pardir "/") with false. cbv iota.
  unfold Py.endswith_char. rewrite last_char_snoc.
  rewrite (bool_decide_eq_false_2 (c = posixpath.sep)) by assumption.
  rewrite bool_decide_eq_false_2; [reflexivity|].
  destruct a; discriminate.
Qed.

Lemma prefix_nil (s : string) : String.prefix "" s = true.
Proof. now destruct s. Qed.

Lemma prefix_cons a (p : string) b (s : string) :
  String.prefix (String a p) (String b s)
  = if ascii_dec a b then String.prefix p s else false.
Proof. reflexivity. Qed.

(** Text appended to a path with a component does not change the number
    of slashes [normpath] keeps in front. *)
Lemma initial_slashes_app (P s : string) :
  has_component P = true ->
  posixpath.initial_slashes (P +:+ s) = posixpath.initial_slashes P.
Proof.
  unfold posixpath.initial_slashes, Py.startswith.
  destruct P as [|c1 P]; [discriminate|].
  rewrite app_String, !prefix_cons, !prefix_nil.
  destruct (ascii_dec "/" c1) as [<-|_]; [|reflexivity].
  simpl. destruct P as [|c2 P]; [discriminate|].
  rewrite app_String, !prefix_cons, !prefix_nil.
  destruct (ascii_dec "/" c2) as [<-|_]; [|reflexivity].
  simpl. destruct P as [|c3 P]; [discriminate|].
  rewrite app_String, !prefix_cons, !prefix_nil.
  reflexivity.
Qed.

Lemma has_component_app_r (a b : string) :
  has_component b = true -> has_component (a +:+ b) = true.
Proof.
  intros H. induction a as [|c a IH]; [assumption|].
  rewrite app_String. simpl. rewrite IH. apply orb_true_r.
Qed.

(** An entry name followed by [..] leaves the loop of [normpath] where it
    was. *)
Lemma norm_comps_pop absolute (cs acc : list string) f :
  is_name f = true ->
  posixpath.norm_comps absolute acc (cs ++ [f; ".."])
  = posixpath.norm_comps absolute acc cs.
Proof.
  intros Hf. unfold is_name in Hf.
  rewrite !andb_true_iff, !negb_true_iff in Hf.
  destruct Hf as [[[H1 H2] H3] _].
  revert acc. induction cs as [|c cs IH]; intros acc.
  - cbn [app posixpath.norm_comps]. rewrite H1, H2, H3.
    cbn [orb negb andb].
    rewrite andb_false_r. cbn [orb tail]. reflexivity.
  - cbn [app posixpath.norm_comps].
    destruct (bool_decide (c = "") || bool_decide (c = posixpath.curdir));
      [apply IH|].
    match goal with |- (if ?b then _ else _) = _ => destruct b end; apply IH.
Qed.

(** [normpath] of a path followed by an entry name and [..] is [normpath]
    of the path. *)
Lemma normpath_pop (P f : string) :
  has_component P = true -> is_name f = true ->
  posixpath.normpath (P +:+ String posixpath.sep (f +:+ String posixpath.sep ".."))
  = posixpath.normpath P.
Proof.
  intros HP Hf. unfold posixpath.normpath.
  rewrite initial_slashes_app by assumption.
  rewrite !split_app_sep, (split_no_sep f) by now apply is_name_no_sep.
  change (Py.split posixpath.sep "..") with [".."].
  change ([f] ++ [".."]) with [f; ".."].
  rewrite norm_comps_pop by assumption.
  destruct P as [|c P]; [discriminate|].
  rewrite app_String.
  now rewrite !(bool_decide_eq_false_2 (String c _ = "")) by discriminate.
Qed.

(** [abspath] of a path followed by an entry name and [..] is [abspath] of
    the path. *)
Lemma abspath_pop cwd (P f : string) :
  has_component P = true -> is_name f = true ->
  posixpath.abspath cwd
    (P +:+ String posixpath.sep (f +:+ String posixpath.sep ".."))
  = posixpath.abspath cwd P.
Proof.
  intros HP Hf. unfold posixpath.abspath, posixpath.isabs, Py.startswith.
  assert (Hhead : forall s : string,
             String.prefix "/" (P +:+ s) = String.prefix "/" P).
  { intros s. destruct P as [|c P]; [discriminate|].
    now rewrite app_String, !prefix_cons, !prefix_nil. }
  rewrite Hhead.
  destruct (String.prefix "/" P) eqn:Habs; [now apply normpath_pop|].
  unfold posixpath.join, Py.startswith. rewrite Hhead, Habs.
  destruct (bool_decide (cwd = "") || Py.endswith_char cwd posixpath.sep).
  - rewrite <- str_app_assoc. apply normpath_pop; [|assumption].
    now apply has_component_app_r.
  - rewrite <- !str_app_assoc. apply normpath_pop; [|assumption].
    rewrite str_app_assoc. now apply has_component_app_r, has_component_app_r.
Qed.

(** The path a [find -print] line and [os.pardir] resolve to: the line
    is the path of a directory named [fastlane] in [parent], followed by
    a newline, and [abspath] of its join with [..] is [abspath] of
    [parent]. *)
Lemma abspath_of_printed_line cwd (parent : string) :
  has_component parent = true ->
  posixpath.abspath cwd
    (posixpath.join (parent +:+ "/fastlane" +:+ newline) posixpath.pardir)
  = posixpath.abspath cwd parent.
Proof.
  intros HP. unfold newline.
  rewrite <- (str_app_assoc parent "/fastlane").
  rewrite join_pardir by discriminate.
  rewrite !str_app_assoc.
  change ("/fastlane" +:+ String "010" "" +:+ String posixpath.sep "..")
    with (String posixpath.sep
            (("fastlane" +:+ newline) +:+ String posixpath.sep "..")).
  now apply abspath_pop.
Qed.

(** ** Text *)

Lemma valid_utf8_cons b0 (r1 : string) :
  Py.valid_utf8 (String b0 r1)
  = let n := N_of_ascii b0 in
    if (n <? 128)%N then Py.valid_utf8 r1
    else if Py.byte_in 194 223 b0 then
      match r1 with
      | String b1 r2 => Py.byte_in 128 191 b1 && Py.valid_utf8 r2
      | _ => false
      end
    else if Py.byte_in 224 239 b0 then
      match r1 with
      | String b1 (String b2 r3) =>
          Py.byte_in (if (n =? 224)%N then 160 else 128)
                     (if (n =? 237)%N then 159 else 191) b1
          && Py.byte_in 128 191 b2 && Py.valid_utf8 r3
      | _ => false
      end
    else if Py.byte_in 240 244 b0 then
      match r1 with
      | String b1 (String b2 (String b3 r4)) =>
          Py.byte_in (if (n =? 240)%N then 144 else 128)
                     (if (n =? 244)%N then 143 else 191) b1
          && Py.byte_in 128 191 b2 && Py.byte_in 128 191 b3
          && Py.valid_utf8 r4
      | _ => false
      end
    else false.
Proof. reflexivity. Qed.

(** Text followed by bytes is text exactly when the bytes are. *)
Lemma valid_utf8_app (a b : string) :
  Py.valid_utf8 a = true -> Py.valid_utf8 (a +:+ b) = Py.valid_utf8 b.
Proof.
  remember (String.length a) as n eqn:Hn. revert a Hn.
  induction n as [n IH] using lt_wf_ind. intros a Hn Hv. subst n.
  destruct a as [|b0 r1]; [reflexivity|].
  rewrite app_String, valid_utf8_cons. rewrite valid_utf8_cons in Hv.
  cbv zeta in *.
  destruct (N_of_ascii b0 <? 128)%N.
  { eapply IH; [|reflexivity|assumption]. simpl. lia. }
  destruct (Py.byte_in 194 223 b0).
  { destruct r1 as [|b1 r2]; [discriminate|]. rewrite app_String.
    apply andb_true_iff in Hv as [-> Hv]. cbn [andb].
    eapply IH; [|reflexivity|assumption]. simpl. lia. }
  destruct (Py.byte_in 224 239 b0).
  { destruct r1 as [|b1 [|b2 r3]]; try discriminate. rewrite !app_String.
    apply andb_true_iff in Hv as [Hv12 Hv]. rewrite Hv12. cbn [andb].
    eapply IH; [|reflexivity|assumption]. simpl. lia. }
  destruct (Py.byte_in 240 244 b0); [|discriminate].
  destruct r1 as [|b1 [|b2 [|b3 r4]]]; try discriminate. rewrite !app_String.
  apply andb_true_iff in Hv as [Hv123 Hv]. rewrite Hv123. cbn [andb].
  eapply IH; [|reflexivity|assumption]. simpl. lia.
Qed.

Lemma has_cr_app (a b : string) : has_cr (a +:+ b) = has_cr a || has_cr b.
Proof.
  induction a as [|c a IH]; [reflexivity|].
  rewrite app_String. simpl. now rewrite IH, orb_assoc.
Qed.

Lemma plain_text_app (a b : string) :
  plain_text a = true -> plain_text b = true -> plain_text (a +:+ b) = true.
Proof.
  unfold plain_text. rewrite !andb_true_iff, !negb_true_iff.
  intros [Ha Hca] [Hb Hcb].
  now rewrite valid_utf8_app, has_cr_app, Hca, Hcb by assumption.
Qed.

Lemma replace_crlf_no_cr (s : string) : has_cr s = false -> Py.replace_crlf s = s.
Proof.
  remember (String.length s) as n eqn:Hn. revert s Hn.
  induction n as [n IH] using lt_wf_ind. intros s Hn Hs. subst n.
  destruct s as [|c [|d s]]; [reflexivity..|].
  change (has_cr (String c (String d s)))
    with (bool_decide (c = Py.CR) || has_cr (String d s)) in Hs.
  apply orb_false_iff in Hs as [Hc Hs].
  change (Py.replace_crlf (String c (String d s)))
    with (if bool_decide (c = Py.CR) && bool_decide (d = Py.LF)
          then String Py.LF (Py.replace_crlf s)
          else String c (Py.replace_crlf (String d s))).
  rewrite Hc. cbn [andb]. f_equal.
  eapply IH; [|reflexivity|assumption]. simpl. lia.
Qed.

Lemma replace_cr_no_cr (s : string) : has_cr s = false -> Py.replace_cr s = s.
Proof.
  induction s as [|c s IH]; [reflexivity|]. simpl.
  intros [Hc Hs]%orb_false_iff. now rewrite Hc, IH.
Qed.

(** What is captured of plain text is the text itself. *)
Lemma output_text_plain (fd : Fd) (s : string) :
  plain_text s = true -> output_text [(fd, s)] = Some s.
Proof.
  unfold plain_text. rewrite andb_true_iff, negb_true_iff. intros [Hv Hc].
  unfold output_text, merged, Py.bytes_decode. cbn [map snd String.concat].
  rewrite Hv. cbn [option_map]. unfold Py.translate_newlines.
  now rewrite replace_crlf_no_cr, replace_cr_no_cr.
Qed.

(** ** More on paths *)

Lemma isabs_app (a b : string) :
  posixpath.isabs a = true -> posixpath.isabs (a +:+ b) = true.
Proof.
  unfold posixpath.isabs, Py.startswith.
  destruct a as [|c a]; [discriminate|].
  now rewrite app_String, !prefix_cons, !prefix_nil.
Qed.

Lemma abspath_isabs cwd (p : string) :
  posixpath.isabs p = true -> posixpath.abspath cwd p = posixpath.normpath p.
Proof. intros H. unfold posixpath.abspath. now rewrite H. Qed.

Lemma has_component_app_l (a b : string) :
  has_component a = true -> has_component (a +:+ b) = true.
Proof.
  induction a as [|c a IH]; [discriminate|].
  rewrite app_String. simpl. intros [H|H]%orb_true_iff.
  - now rewrite H.
  - rewrite IH by assumption. apply orb_true_r.
Qed.

(** A path that ends in a given character is some path followed by
    it. *)
Lemma endswith_char_snoc (a : string) c :
  Py.endswith_char a c = true -> exists q, a = q +:+ String c "".
Proof.
  unfold Py.endswith_char.
  induction a as [|x a IH]; [discriminate|].
  destruct a as [|y a].
  - simpl. intros H. apply bool_decide_eq_true in H as ->. now exists "".
  - change (Py.last_char (String x (String y a)))
      with (Py.last_char (String y a)).
    intros H. destruct (IH H) as [q ->]. exists (String x q).
    now rewrite app_String.
Qed.

(** An empty component at the end leaves the loop of [normpath] where it
    was. *)
Lemma norm_comps_trailing absolute (cs acc : list string) :
  posixpath.norm_comps absolute acc (cs ++ [""])
  = posixpath.norm_comps absolute acc cs.
Proof.
  revert acc. induction cs as [|c cs IH]; intros acc; [reflexivity|].
  cbn [app posixpath.norm_comps].
  destruct (bool_decide (c = "") || bool_decide (c = posixpath.curdir));
    [apply IH|].
  match goal with |- (if ?b then _ else _) = _ => destruct b end; apply IH.
Qed.

(** A slash at the end of a path with a component does not count. *)
Lemma normpath_trailing_sep (P : string) :
  has_component P = true ->
  posixpath.normpath (P +:+ String posixpath.sep "") = posixpath.normpath P.
Proof.
  intros HP. unfold posixpath.normpath.
  rewrite initial_slashes_app by assumption.
  rewrite split_app_sep.
  change (Py.split posixpath.sep "") with [""].
  rewrite norm_comps_trailing.
  destruct P as [|c P]; [discriminate|].
  rewrite app_String.
  now rewrite !(bool_decide_eq_false_2 (String c _ = "")) by discriminate.
Qed.

Lemma has_component_snoc_sep (q : string) :
  has_component (q +:+ String posixpath.sep "") = has_component q.
Proof.
  induction q as [|c q IH]; [reflexivity|].
  rewrite app_String. simpl. now rewrite IH.
Qed.

(** What the locator makes of the line printed for a directory named
    [fastlane] right below [parent]: [parent], normalised. *)
Lemma locator_path cwd (parent : string) :
  posixpath.isabs parent = true ->
  has_component parent = true ->
  posixpath.abspath cwd
    (posixpath.join (child_path parent "fastlane" +:+ newline) posixpath.pardir)
  = posixpath.normpath parent.
Proof.
  intros Habs Hcomp. unfold child_path.
  destruct (Py.endswith_char parent posixpath.sep) eqn:Hend.
  - apply endswith_char_snoc in Hend as [q ->].
    rewrite has_component_snoc_sep in Hcomp.
    rewrite normpath_trailing_sep by assumption.
    rewrite !str_app_assoc.
    change (String posixpath.sep "" +:+ "fastlane" +:+ newline)
      with ("/fastlane" +:+ newline).
    rewrite abspath_of_printed_line by assumption.
    apply abspath_isabs.
    unfold posixpath.isabs, Py.startswith in *.
    destruct q as [|c q]; [discriminate|].
    rewrite app_String in Habs.
    now rewrite !prefix_cons, !prefix_nil in Habs |- *.
  - rewrite !str_app_assoc.
    change ("/" +:+ "fastlane" +:+ newline) with ("/fastlane" +:+ newline).
    rewrite abspath_of_printed_line by assumption.
    now apply abspath_isabs.
Qed.

End PathFacts.

(* ===================================================================== *)
(** * The tooling locator *)
(* ===================================================================== *)

Lemma in_matches name (es : list (string * Node)) rel :
  In rel (matches name es) -> rel = [name] \/ exists c, rel = [c; name].
Proof.
  unfold matches. intros H.
  apply in_flat_map in H as (e & _ & H).
  apply in_app_or in H as [H|H].
  - unfold named_dir in H.
    destruct (String.eqb_spec (fst e) name) as [<-|]; cbn [andb] in H;
      [|destruct H].
    destruct (is_dir (snd e)); [|destruct H].
    destruct H as [<-|[]]. now left.
  - destruct (snd e) as [|es']; [destruct H|].
    apply in_flat_map in H as (e' & _ & H).
    unfold named_dir in H.
    destruct (String.eqb_spec (fst e') name) as [<-|]; cbn [andb] in H;
      [|destruct H].
    destruct (is_dir (snd e')); [|destruct H].
    destruct H as [<-|[]]. right. now exists (fst e).
Qed.

Section Locator.

Context (os : OS) (tree : FS os -> list (string * Node)).

(** C4, as amended.  The repository root is an absolute path to a
    directory other than the root directory, it is not itself called
    [fastlane], the search of the host is [gnu_find] on the directory
    tree, and the path of the one directory called [fastlane] within two
    levels is plain text.  Then the locator returns the parent of that
    directory, as a normalised path. *)
Theorem find_fastlane_directory_parent
        (project_root : string) (w : World os) es rel :
  fst (os_spawn os (find_command project_root) (Some project_root)
         (environ w) (fs w))
  = gnu_find (tree (fs w)) project_root project_root "fastlane" ->
  posixpath.isabs project_root = true ->
  has_component project_root = true ->
  base_name project_root <> "fastlane" ->
  resolve (tree (fs w)) project_root project_root = Found (Dir es) ->
  matches "fastlane" es = [rel] ->
  plain_text (below project_root rel) = true ->
  result (find_fastlane_directory os project_root w)
  = Ok (posixpath.normpath (below project_root (removelast rel))).
Proof.
  intros Hfind Habs Hcomp Hbase Hres Hone Hplain.
  assert (Hout : fst (os_spawn os (find_command project_root)
                        (Some project_root) (environ w) (fs w))
                 = Exited 0 [(Stdout, below project_root rel +:+ newline)]).
  { rewrite Hfind. unfold gnu_find. rewrite Hres, Hone.
    destruct (String.eqb_spec (base_name project_root) "fastlane");
      [contradiction|reflexivity]. }
  assert (Htext : output_text [(Stdout, below project_root rel +:+ newline)]
                  = Some (below project_root rel +:+ newline)).
  { apply output_text_plain, plain_text_app; [assumption|reflexivity]. }
  unfold find_fastlane_directory, bind.
  change ["find"; project_root; "-maxdepth"; "2"; "-name"; "fastlane";
          "-type"; "d"; "-print"; "-quit"] with (find_command project_root).
  rewrite run_subprocess_run.
  destruct (os_spawn os (find_command project_root) (Some project_root)
              (environ w) (fs w)) as [o fs'].
  cbn [fst] in Hout. subst o.
  cbn [failure_of stdout_of result final emitted]. rewrite Htext.
  cbn [Z.eqb default result ret]. f_equal.
  assert (Hin : In rel (matches "fastlane" es)) by (rewrite Hone; now left).
  apply in_matches in Hin as [->|[c ->]].
  - cbn [below fold_left removelast]. now apply locator_path.
  - cbn [below fold_left removelast].
    apply locator_path.
    + unfold child_path.
      destruct (Py.endswith_char project_root posixpath.sep);
        now apply isabs_app.
    + unfold child_path.
      destruct (Py.endswith_char project_root posixpath.sep);
        now apply has_component_app_l.
Qed.

End Locator.

(* ===================================================================== *)
(** * The two flows *)
(* ===================================================================== *)

Section Flows.

Context (os : OS).

Lemma bind_ext {A B} (m : M os A) (k k' : A -> M os B) w :
  (forall a w', k a w' = k' a w') -> bind os m k w = bind os m k' w.
Proof.
  intros H. unfold bind. destruct (result (m w)); [|reflexivity].
  now rewrite H.
Qed.

Lemma spawn_failures_app tr1 tr2 :
  spawn_failures (tr1 ++ tr2) = spawn_failures tr1 ++ spawn_failures tr2.
Proof. apply omap_app. Qed.

Lemma chat_app tr1 tr2 : chat (tr1 ++ tr2) = chat tr1 ++ chat tr2.
Proof. apply List.filter_app. Qed.

Lemma spawns_app tr1 tr2 : spawns (tr1 ++ tr2) = spawns tr1 ++ spawns tr2.
Proof. apply List.filter_app. Qed.

Lemma attachments_chat tr : attachments (chat tr) = attachments tr.
Proof.
  induction tr as [|[] tr IH]; simpl; try assumption; try (now f_equal).
Qed.

(** ** The steps *)

Lemma command_run_ret {A} (a : A) (w : World os) : command_run w (ret os a w).
Proof. repeat split. constructor. Qed.

Lemma command_run_run_subprocess args cwd (w : World os) :
  command_run w (run_subprocess os args cwd w).
Proof.
  rewrite run_subprocess_run.
  destruct (os_spawn os args cwd (environ w) (fs w)) as [o fs'].
  unfold command_run; simpl.
  split; [reflexivity|]. split; [reflexivity|].
  split; [now destruct (failure_of args o)|].
  split; [reflexivity|]. now repeat constructor.
Qed.

Lemma command_run_bind {A B} (m : M os A) (k : A -> M os B) (w : World os) :
  command_run w (m w) ->
  (forall a w', environ w' = environ w -> command_run w' (k a w')) ->
  command_run w (bind os m k w).
Proof.
  intros (Hc & Hs & Hf & He & Ha) Hk. unfold bind.
  destruct (result (m w)) as [a|e] eqn:E; simpl.
  - destruct (Hk a (final (m w)) He) as (Hc' & Hs' & Hf' & He' & Ha').
    unfold command_run; simpl.
    rewrite chat_app, spawns_app, spawn_failures_app, Hc, Hc', Hs, Hs', Hf, Hf'.
    split; [reflexivity|]. split; [reflexivity|]. split; [reflexivity|].
    split; [congruence|].
    apply Forall_app. split; [assumption|].
    eapply List.Forall_impl; [|exact Ha'].
    intros [] Hev; try exact I. simpl in *. congruence.
  - unfold command_run; simpl. now rewrite Hc, Hs, Hf.
Qed.

Lemma command_run_fetch root branch (w : World os) :
  command_run w (fetch_branch_from_origin os root branch w).
Proof.
  unfold fetch_branch_from_origin, for_each.
  repeat (apply command_run_bind; [|intros ? ? ?]);
    first [apply command_run_run_subprocess | apply command_run_ret].
Qed.

Lemma command_run_find root (w : World os) :
  command_run w (find_fastlane_directory os root w).
Proof.
  unfold find_fastlane_directory.
  apply command_run_bind; [apply command_run_run_subprocess|].
  intros; apply command_run_ret.
Qed.

Lemma command_run_steps tool cfg pn bn (w : World os) :
  command_run w (flow_steps os tool cfg pn bn w).
Proof.
  unfold flow_steps.
  apply command_run_bind; [apply command_run_fetch|intros _ w1 _].
  apply command_run_bind; [apply command_run_find|intros d w2 _].
  apply command_run_bind; [apply command_run_run_subprocess|intros _ w3 _].
  apply command_run_run_subprocess.
Qed.

End Flows.

Section FlowOutcome.

Context (os : OS).

Lemma try_except_congr {A} (m m' : M os A) h w :
  m w = m' w -> try_except os m h w = try_except os m' h w.
Proof. intros H. unfold try_except. now rewrite H. Qed.

(** The body of a flow is its steps followed by the success report. *)
Lemma flow_body_steps tool message response cfg pn bn (w : World os) :
  bind os (fetch_branch_from_origin os (get_project_root cfg pn) bn) (fun _ =>
  bind os (find_fastlane_directory os (get_project_root cfg pn)) (fun d =>
  bind os (install_bundle os d) (fun _ =>
  bind os (run_subprocess os tool (Some d)) (fun cp =>
  report_success os message response cp)))) w
  = bind os (flow_steps os tool cfg pn bn)
      (report_success os message response) w.
Proof.
  symmetry. unfold flow_steps.
  etransitivity; [apply bind_assoc|]. apply bind_ext. intros _ w1.
  etransitivity; [apply bind_assoc|]. apply bind_ext. intros d w2.
  apply bind_assoc.
Qed.

Lemma try_flow_outcome tool message response error cfg pn bn (w : World os) :
  bind os (add_reaction os message "hourglass") (fun _ =>
    try_except os
      (bind os (flow_steps os tool cfg pn bn)
         (report_success os message response))
      (report_failure os message error)) w
  = flow_outcome message response error (flow_steps os tool cfg pn bn w).
Proof.
  unfold flow_outcome, bind, try_except.
  cbn [add_reaction emit result final emitted].
  generalize (flow_steps os tool cfg pn bn w).
  intros [[cp|[rc cmd out|errno|]] w' tr]; cbn; now rewrite ?app_nil_r.
Qed.

Lemma run_flow_outcome cfg f message pn bn (w : World os) :
  run_flow os cfg f message pn bn w
  = flow_outcome message (response_name f) (error_name f)
      (flow_steps os (tool_command f) cfg pn bn (start_world f w)).
Proof.
  destruct f as [|environment]; simpl.
  - rewrite <- try_flow_outcome. unfold fastlane_env.
    apply bind_ext. intros _ w1. apply try_except_congr.
    apply flow_body_steps.
  - rewrite <- try_flow_outcome. unfold fastlane.
    unfold bind at 1, environ_set. cbn [result final emitted app].
    rewrite run_eta.
    apply bind_ext. intros _ w1. apply try_except_congr.
    apply flow_body_steps.
Qed.

(** ** The steps, command by command *)

Lemma bind_ret {A B} (a : A) (k : A -> M os B) (w : World os) :
  bind os (ret os a) k w = k a w.
Proof. unfold bind, ret. cbn [result final emitted app]. apply run_eta. Qed.

Lemma bind_run_subprocess {B} args cwd (k : CompletedProcess -> M os B)
      (w : World os) :
  bind os (run_subprocess os args cwd) k w =
  let '(o, fs1) := os_spawn os args cwd (environ w) (fs w) in
  match failure_of args o with
  | Some e =>
      {| result := Raise e;
         final := {| fs := fs1; environ := environ w |};
         emitted := [Spawn args cwd (environ w) o] |}
  | None =>
      let r := k {| args := args; returncode := 0; stdout := stdout_of o |}
                 {| fs := fs1; environ := environ w |} in
      {| result := result r;
         final := final r;
         emitted := Spawn args cwd (environ w) o :: emitted r |}
  end.
Proof.
  unfold bind. rewrite run_subprocess_run.
  destruct (os_spawn os args cwd (environ w) (fs w)) as [o fs1].
  cbn [result final emitted].
  destruct (failure_of args o); reflexivity.
Qed.

Lemma bind_fetch {B} root branch (k : unit -> M os B) (w : World os) :
  bind os (fetch_branch_from_origin os root branch) k w =
  let fetch := ["git"; "fetch"; "-p"] in
  let checkout :=
    ["git"; "checkout"; "-B"; branch; "origin/" +:+ branch; "-f"] in
  let '(o1, fs1) := os_spawn os fetch (Some root) (environ w) (fs w) in
  match failure_of fetch o1 with
  | Some e =>
      {| result := Raise e;
         final := {| fs := fs1; environ := environ w |};
         emitted := [Spawn fetch (Some root) (environ w) o1] |}
  | None =>
      let '(o2, fs2) := os_spawn os checkout (Some root) (environ w) fs1 in
      match failure_of checkout o2 with
      | Some e =>
          {| result := Raise e;
             final := {| fs := fs2; environ := environ w |};
             emitted := [Spawn fetch (Some root) (environ w) o1;
                         Spawn checkout (Some root) (environ w) o2] |}
      | None =>
          let r := k tt {| fs := fs2; environ := environ w |} in
          {| result := result r;
             final := final r;
             emitted := Spawn fetch (Some root) (environ w) o1
                        :: Spawn checkout (Some root) (environ w) o2
                        :: emitted r |}
      end
  end.
Proof.
  unfold bind. rewrite fetch_branch_from_origin_run. cbv zeta.
  destruct (os_spawn os ["git"; "fetch"; "-p"] (Some root) (environ w) (fs w))
    as [o1 fs1].
  destruct (failure_of _ o1); [reflexivity|].
  destruct (os_spawn os _ (Some root) (environ w) fs1) as [o2 fs2].
  cbn [result final emitted].
  destruct (failure_of _ o2); reflexivity.
Qed.

Lemma bind_find {B} root (k : string -> M os B) (w : World os) :
  bind os (find_fastlane_directory os root) k w =
  let '(o, fs1) :=
    os_spawn os (find_command root) (Some root) (environ w) (fs w) in
  match failure_of (find_command root) o with
  | Some e =>
      {| result := Raise e;
         final := {| fs := fs1; environ := environ w |};
         emitted := [Spawn (find_command root) (Some root) (environ w) o] |}
  | None =>
      let r := k (locator_answer os o) {| fs := fs1; environ := environ w |} in
      {| result := result r;
         final := final r;
         emitted := Spawn (find_command root) (Some root) (environ w) o
                    :: emitted r |}
  end.
Proof.
  unfold find_fastlane_directory. rewrite bind_assoc.
  change ["find"; root; "-maxdepth"; "2"; "-name"; "fastlane";
          "-type"; "d"; "-print"; "-quit"] with (find_command root).
  rewrite bind_run_subprocess.
  destruct (os_spawn os (find_command root) (Some root) (environ w) (fs w))
    as [o fs1].
  destruct (failure_of (find_command root) o); [reflexivity|].
  cbv zeta. now rewrite bind_ret.
Qed.

(** The steps of a flow as calls of the host, one after the other. *)
Lemma flow_steps_run tool cfg pn bn (w : World os) :
  flow_steps os tool cfg pn bn w =
  let root := get_project_root cfg pn in
  let env := environ w in
  let fetch := ["git"; "fetch"; "-p"] in
  let checkout := ["git"; "checkout"; "-B"; bn; "origin/" +:+ bn; "-f"] in
  let bundle := ["bundle"; "install"] in
  let '(o1, fs1) := os_spawn os fetch (Some root) env (fs w) in
  let '(o2, fs2) := os_spawn os checkout (Some root) env fs1 in
  let '(o3, fs3) := os_spawn os (find_command root) (Some root) env fs2 in
  let d := locator_answer os o3 in
  let '(o4, fs4) := os_spawn os bundle (Some d) env fs3 in
  let '(o5, fs5) := os_spawn os tool (Some d) env fs4 in
  let ev1 := Spawn fetch (Some root) env o1 in
  let ev2 := Spawn checkout (Some root) env o2 in
  let ev3 := Spawn (find_command root) (Some root) env o3 in
  let ev4 := Spawn bundle (Some d) env o4 in
  let ev5 := Spawn tool (Some d) env o5 in
  let stop e fs' tr :=
    {| result := Raise e; final := {| fs := fs'; environ := env |};
       emitted := tr |} in
  match failure_of fetch o1 with
  | Some e => stop e fs1 [ev1]
  | None =>
  match failure_of checkout o2 with
  | Some e => stop e fs2 [ev1; ev2]
  | None =>
  match failure_of (find_command root) o3 with
  | Some e => stop e fs3 [ev1; ev2; ev3]
  | None =>
  match failure_of bundle o4 with
  | Some e => stop e fs4 [ev1; ev2; ev3; ev4]
  | None =>
  match failure_of tool o5 with
  | Some e => stop e fs5 [ev1; ev2; ev3; ev4; ev5]
  | None =>
      {| result := Ok {| args := tool; returncode := 0;
                         stdout := stdout_of o5 |};
         final := {| fs := fs5; environ := env |};
         emitted := [ev1; ev2; ev3; ev4; ev5] |}
  end end end end end.
Proof.
  unfold flow_steps. cbv zeta. rewrite bind_fetch. cbv zeta.
  destruct (os_spawn os ["git"; "fetch"; "-p"]
              (Some (get_project_root cfg pn)) (environ w) (fs w)) as [o1 fs1].
  destruct (os_spawn os ["git"; "checkout"; "-B"; bn; "origin/" +:+ bn; "-f"]
              (Some (get_project_root cfg pn)) (environ w) fs1) as [o2 fs2].
  destruct (failure_of _ o1).
  { now repeat match goal with |- context [let '(_, _) := ?p in _] =>
                 destruct p end. }
  destruct (failure_of _ o2).
  { now repeat match goal with |- context [let '(_, _) := ?p in _] =>
                 destruct p end. }
  rewrite bind_find. cbn [fs environ].
  destruct (os_spawn os (find_command (get_project_root cfg pn))
              (Some (get_project_root cfg pn)) (environ w) fs2) as [o3 fs3].
  destruct (failure_of _ o3).
  { now repeat match goal with |- context [let '(_, _) := ?p in _] =>
                 destruct p end. }
  unfold install_bundle. rewrite bind_run_subprocess. cbn [fs environ].
  destruct (os_spawn os ["bundle"; "install"] (Some (locator_answer os o3))
              (environ w) fs3) as [o4 fs4].
  destruct (failure_of _ o4).
  { now repeat match goal with |- context [let '(_, _) := ?p in _] =>
                 destruct p end. }
  rewrite run_subprocess_run. cbn [fs environ].
  destruct (os_spawn os tool (Some (locator_answer os o3)) (environ w) fs4)
    as [o5 fs5].
  destruct (failure_of tool o5); reflexivity.
Qed.

End FlowOutcome.

(* ===================================================================== *)
(** * What a flow reports *)
(* ===================================================================== *)

Section FlowReports.

Context (os : OS).

Lemma flow_outcome_failures message response error (rs : Run os CompletedProcess) :
  spawn_failures (emitted (flow_outcome message response error rs))
  = spawn_failures (emitted rs).
Proof.
  unfold flow_outcome.
  destruct (result rs) as [cp|[rc cmd out|errno|]]; cbn [emitted];
    change (spawn_failures (AddReaction ?m ?e :: ?tr)) with (spawn_failures tr);
    rewrite ?spawn_failures_app, ?app_nil_r; reflexivity.
Qed.

Lemma flow_outcome_spawns message response error (rs : Run os CompletedProcess) :
  spawns (emitted (flow_outcome message response error rs))
  = spawns (emitted rs).
Proof.
  unfold flow_outcome.
  destruct (result rs) as [cp|[rc cmd out|errno|]]; cbn [emitted];
    change (spawns (AddReaction ?m ?e :: ?tr)) with (spawns tr);
    rewrite ?spawns_app, ?app_nil_r; reflexivity.
Qed.

Lemma flow_outcome_chat message response error (rs : Run os CompletedProcess) :
  chat (emitted rs) = [] ->
  chat (emitted (flow_outcome message response error rs))
  = AddReaction message "hourglass"
    :: match result rs with
       | Ok cp =>
           [RemoveReaction message "hourglass";
            AddReaction message "white_check_mark";
            SendStream {| to := frm message; content := stdout cp;
                          name := response |}]
       | Raise (CalledProcessError _ _ output) =>
           [RemoveReaction message "hourglass";
            AddReaction message "x";
            SendStream {| to := frm message; content := output;
                          name := error |}]
       | Raise _ => []
       end.
Proof.
  intros Hc. unfold flow_outcome.
  destruct (result rs) as [cp|[rc cmd out|errno|]]; cbn [emitted];
    change (chat (AddReaction ?m ?e :: ?tr)) with (AddReaction m e :: chat tr);
    rewrite ?chat_app, Hc; reflexivity.
Qed.

(** The steps of a flow raise exactly the one failure among their
    commands. *)
Lemma steps_failure tool cfg pn bn (w : World os) e :
  In e (spawn_failures (emitted (flow_steps os tool cfg pn bn w))) ->
  result (flow_steps os tool cfg pn bn w) = Raise e.
Proof.
  destruct (command_run_steps os tool cfg pn bn w) as (_ & _ & Hf & _).
  rewrite Hf.
  destruct (result (flow_steps os tool cfg pn bn w)); simpl; [tauto|].
  now intros [->|[]].
Qed.

(** C5, as amended: when a command of either flow exits non-zero, the
    flow replaces the in-progress reaction by the failure reaction,
    sends one attachment, named for the flow, that holds the merged
    output of that command, logs it, sends no success reaction, and
    returns normally. *)
Theorem flow_reports_command_failure cfg f message pn bn (w : World os)
        rc cmd out :
  In (CalledProcessError rc cmd out)
     (spawn_failures (emitted (run_flow os cfg f message pn bn w))) ->
  result (run_flow os cfg f message pn bn w) = Ok None
  /\ chat (emitted (run_flow os cfg f message pn bn w))
     = [AddReaction message "hourglass";
        RemoveReaction message "hourglass";
        AddReaction message "x";
        SendStream {| to := frm message; content := out;
                      name := error_name f |}]
  /\ In (LogException out) (emitted (run_flow os cfg f message pn bn w)).
Proof.
  rewrite run_flow_outcome, flow_outcome_failures. intros H.
  apply steps_failure in H.
  rewrite flow_outcome_chat
    by apply (command_run_steps os (tool_command f) cfg pn bn (start_world f w)).
  unfold flow_outcome. rewrite H. cbn [result emitted].
  split; [reflexivity|]. split; [reflexivity|].
  right. apply in_or_app. right. simpl. tauto.
Qed.

(** C6: when each of the five commands of a flow, run one after the
    other on the host, exits zero with output that is text, the flow
    has run exactly these commands, it replaces the in-progress reaction
    by the success reaction and sends one attachment, named
    [response_name], whose content is the text captured from the release
    tool, the last of the commands; when a command exits non-zero the
    one attachment is named [error_name]. *)
Theorem flow_reports_success cfg f message pn bn (w : World os) :
  let root := get_project_root cfg pn in
  let env := environ (start_world f w) in
  let fetch := ["git"; "fetch"; "-p"] in
  let checkout := ["git"; "checkout"; "-B"; bn; "origin/" +:+ bn; "-f"] in
  let bundle := ["bundle"; "install"] in
  let tool := tool_command f in
  let r := run_flow os cfg f message pn bn w in
  let '(o1, fs1) := os_spawn os fetch (Some root) env (fs w) in
  let '(o2, fs2) := os_spawn os checkout (Some root) env fs1 in
  let '(o3, fs3) := os_spawn os (find_command root) (Some root) env fs2 in
  let d := locator_answer os o3 in
  let '(o4, fs4) := os_spawn os bundle (Some d) env fs3 in
  let '(o5, fs5) := os_spawn os tool (Some d) env fs4 in
  (failure_of fetch o1 = None ->
   failure_of checkout o2 = None ->
   failure_of (find_command root) o3 = None ->
   failure_of bundle o4 = None ->
   failure_of tool o5 = None ->
   exists written out,
     o5 = Exited 0 written
     /\ output_text written = Some out
     /\ spawns (emitted r)
        = [Spawn fetch (Some root) env o1;
           Spawn checkout (Some root) env o2;
           Spawn (find_command root) (Some root) env o3;
           Spawn bundle (Some d) env o4;
           Spawn tool (Some d) env o5]
     /\ result r
        = Ok (Some {| to := frm message; content := out;
                      name := response_name f |})
     /\ chat (emitted r)
        = [AddReaction message "hourglass";
           RemoveReaction message "hourglass";
           AddReaction message "white_check_mark";
           SendStream {| to := frm message; content := out;
                         name := response_name f |}]
     /\ fs (final r) = fs5)
  /\ (forall rc cmd out,
         In (CalledProcessError rc cmd out) (spawn_failures (emitted r)) ->
         attachments (emitted r)
         = [{| to := frm message; content := out; name := error_name f |}]).
Proof.
  cbv zeta.
  assert (Herr : forall rc cmd out,
             In (CalledProcessError rc cmd out)
                (spawn_failures (emitted (run_flow os cfg f message pn bn w))) ->
             attachments (emitted (run_flow os cfg f message pn bn w))
             = [{| to := frm message; content := out; name := error_name f |}]).
  { intros rc cmd out H.
    rewrite run_flow_outcome in H |- *. rewrite flow_outcome_failures in H.
    apply steps_failure in H.
    rewrite <- attachments_chat, flow_outcome_chat
      by apply (command_run_steps os (tool_command f) cfg pn bn (start_world f w)).
    now rewrite H. }
  revert Herr. rewrite run_flow_outcome, flow_steps_run. cbv zeta.
  replace (fs (start_world f w)) with (fs w) by now destruct f.
  destruct (os_spawn os ["git"; "fetch"; "-p"] _ _ (fs w)) as [o1 fs1].
  destruct (os_spawn os ["git"; "checkout"; "-B"; bn; "origin/" +:+ bn; "-f"]
              _ _ fs1) as [o2 fs2].
  destruct (os_spawn os (find_command _) _ _ fs2) as [o3 fs3].
  destruct (os_spawn os ["bundle"; "install"] _ _ fs3) as [o4 fs4].
  destruct (os_spawn os (tool_command f) _ _ fs4) as [o5 fs5].
  intros Herr. split; [|exact Herr].
  intros -> -> -> -> H5. rewrite H5.
  destruct (failure_of_Exited _ _ H5) as (written & out & -> & Hout).
  exists written, out.
  unfold flow_outcome, stdout_of. rewrite Hout.
  cbn [result final emitted fs default].
  repeat split.
Qed.

(** C9: when a step of either flow fails with anything other than
    [CalledProcessError], the exception leaves the flow: the in-progress
    reaction is the only thing the chat sees, no terminal reaction and no
    attachment. *)
Theorem flow_propagates_other_failures cfg f message pn bn (w : World os) e :
  In e (spawn_failures (emitted (run_flow os cfg f message pn bn w))) ->
  (forall rc cmd out, e <> CalledProcessError rc cmd out) ->
  result (run_flow os cfg f message pn bn w) = Raise e
  /\ chat (emitted (run_flow os cfg f message pn bn w))
     = [AddReaction message "hourglass"]
  /\ attachments (emitted (run_flow os cfg f message pn bn w)) = [].
Proof.
  rewrite run_flow_outcome, flow_outcome_failures. intros H Hother.
  apply steps_failure in H.
  rewrite <- attachments_chat.
  rewrite flow_outcome_chat
    by apply (command_run_steps os (tool_command f) cfg pn bn (start_world f w)).
  unfold flow_outcome. rewrite H.
  destruct e as [rc cmd out|errno|]; [now destruct (Hother rc cmd out)| |];
    cbn [result]; repeat split.
Qed.

End FlowReports.

(* ===================================================================== *)
(** * The deployment environment variable *)
(* ===================================================================== *)

Section DeployEnvironment.

Context (os : OS).

Lemma flow_outcome_final message response error (rs : Run os CompletedProcess) :
  final (flow_outcome message response error rs) = final rs.
Proof.
  unfold flow_outcome. now destruct (result rs) as [cp|[rc cmd out|errno|]].
Qed.

Lemma in_spawns cmd cwd env o tr :
  In (Spawn cmd cwd env o) tr <-> In (Spawn cmd cwd env o) (spawns tr).
Proof.
  unfold spawns. rewrite List.filter_In. tauto.
Qed.

(** A flow leaves the environment as its steps found it, and every
    command of the flow ran with exactly that environment. *)
Lemma run_flow_environ cfg f message pn bn (w : World os) :
  environ (final (run_flow os cfg f message pn bn w))
  = environ (start_world f w)
  /\ forall cmd cwd env o,
      In (Spawn cmd cwd env o) (emitted (run_flow os cfg f message pn bn w)) ->
      env = environ (start_world f w).
Proof.
  rewrite run_flow_outcome, flow_outcome_final.
  destruct (command_run_steps os (tool_command f) cfg pn bn (start_world f w))
    as (_ & _ & _ & He & Ha).
  split; [assumption|].
  intros cmd cwd env o Hin.
  apply in_spawns in Hin. rewrite flow_outcome_spawns in Hin.
  apply in_spawns in Hin.
  rewrite List.Forall_forall in Ha. exact (Ha _ Hin).
Qed.

(** C7, as amended: the deploy flow sets [ENV] before its steps and never
    unsets or restores it.  After the flow [ENV] still names its
    environment, every command of the flow ran with it, and so does
    every command of an inspect-environment flow that follows, whatever
    its project. *)
Theorem deploy_leaves_ENV_set cfg message pn environment bn (w : World os) :
  let r := fastlane os cfg message pn environment bn w in
  environ (final r) = <["ENV" := environment]> (environ w)
  /\ (forall cmd cwd env o,
         In (Spawn cmd cwd env o) (emitted r) -> env !! "ENV" = Some environment)
  /\ forall message' pn' bn',
      let r' := fastlane_env os cfg message' pn' bn' (final r) in
      environ (final r') !! "ENV" = Some environment
      /\ forall cmd cwd env o,
          In (Spawn cmd cwd env o) (emitted r') ->
          env !! "ENV" = Some environment.
Proof.
  cbv zeta.
  change (fastlane os cfg message pn environment bn w)
    with (run_flow os cfg (Deploy environment) message pn bn w).
  destruct (run_flow_environ cfg (Deploy environment) message pn bn w)
    as [Hfinal Hcmds].
  cbn [start_world environ] in Hfinal, Hcmds.
  split; [assumption|]. split.
  - intros cmd cwd env o Hin. rewrite (Hcmds _ _ _ _ Hin).
    apply lookup_insert_eq.
  - intros message' pn' bn'.
    change (fastlane_env os cfg message' pn' bn' ?w')
      with (run_flow os cfg Inspect message' pn' bn' w').
    destruct (run_flow_environ cfg Inspect message' pn' bn'
                (final (run_flow os cfg (Deploy environment) message pn bn w)))
      as [Hfinal' Hcmds'].
    cbn [start_world] in Hfinal', Hcmds'.
    split.
    + rewrite Hfinal', Hfinal. apply lookup_insert_eq.
    + intros cmd cwd env o Hin. rewrite (Hcmds' _ _ _ _ Hin), Hfinal.
      apply lookup_insert_eq.
Qed.

End DeployEnvironment.

(* ===================================================================== *)
(** * Cloning the configured projects *)
(* ===================================================================== *)

Section SetupRepos.

Context (os : OS) (cfg : Config).

Lemma setup_repos_parts (w : World os) :
  setup_repos os cfg w
  = bind os (ensure_root os cfg) (fun _ => clone_missing os cfg (projects cfg)) w.
Proof. reflexivity. Qed.

(** The root step emits nothing and touches the filesystem only through
    [os.makedirs]. *)
Lemma ensure_root_run (w : World os) :
  emitted (ensure_root os cfg w) = []
  /\ final (ensure_root os cfg w)
     = {| fs := snd (os_makedirs os (REPOS_ROOT cfg) (fs w));
          environ := environ w |}
  /\ (result (ensure_root os cfg w) = Ok tt
      \/ exists errno, result (ensure_root os cfg w) = Raise (OSError errno)).
Proof.
  unfold ensure_root, try_except, makedirs.
  destruct (os_makedirs os (REPOS_ROOT cfg) (fs w)) as [[errno|] fs1];
    cbn [result final emitted snd]; [|auto].
  destruct (negb (errno =? EEXIST)); cbn; eauto.
Qed.

Lemma clone_missing_nil (w : World os) :
  clone_missing os cfg [] w = ret os tt w.
Proof. reflexivity. Qed.

Lemma bind_ret_l {A B} (a : A) (k : A -> M os B) (w : World os) :
  bind os (ret os a) k w = k a w.
Proof. unfold bind, ret. cbn [result final emitted app]. apply run_eta. Qed.

Lemma bind_path_exists {B} path (k : bool -> M os B) (w : World os) :
  bind os (path_exists os path) k w = k (os_path_exists os path (fs w)) w.
Proof.
  unfold bind, path_exists. cbn [result final emitted app]. apply run_eta.
Qed.

Lemma clone_missing_cons p ps (w : World os) :
  clone_missing os cfg (p :: ps) w
  = bind os
      (if negb (os_path_exists os (project_dir cfg p) (fs w))
       then bind os (run_subprocess os (clone_command p) (Some (REPOS_ROOT cfg)))
              (fun _ => ret os tt)
       else ret os tt)
      (fun _ => clone_missing os cfg ps) w.
Proof.
  change (clone_missing os cfg (p :: ps) w)
    with (bind os
            (bind os (path_exists os (project_dir cfg p))
               (fun present =>
                  if negb present
                  then bind os (run_subprocess os (clone_command p)
                                  (Some (REPOS_ROOT cfg)))
                         (fun _ => ret os tt)
                  else ret os tt))
            (fun _ => clone_missing os cfg ps) w).
  now rewrite bind_assoc, bind_path_exists.
Qed.

Lemma clone_missing_present p ps (w : World os) :
  os_path_exists os (project_dir cfg p) (fs w) = true ->
  clone_missing os cfg (p :: ps) w = clone_missing os cfg ps w.
Proof.
  intros H. rewrite clone_missing_cons, H. cbn [negb].
  apply (bind_ret_l tt (fun _ => clone_missing os cfg ps)).
Qed.

Lemma clone_missing_absent p ps (w : World os) :
  os_path_exists os (project_dir cfg p) (fs w) = false ->
  clone_missing os cfg (p :: ps) w =
  let '(o, fs1) :=
    os_spawn os (clone_command p) (Some (REPOS_ROOT cfg)) (environ w) (fs w) in
  match failure_of (clone_command p) o with
  | Some e =>
      {| result := Raise e;
         final := {| fs := fs1; environ := environ w |};
         emitted := [Spawn (clone_command p) (Some (REPOS_ROOT cfg))
                       (environ w) o] |}
  | None =>
      let r := clone_missing os cfg ps {| fs := fs1; environ := environ w |} in
      {| result := result r;
         final := final r;
         emitted := Spawn (clone_command p) (Some (REPOS_ROOT cfg))
                      (environ w) o :: emitted r |}
  end.
Proof.
  intros H. rewrite clone_missing_cons, H. cbn [negb].
  unfold bind at 1. rewrite run_step.
  destruct (os_spawn os (clone_command p) (Some (REPOS_ROOT cfg))
              (environ w) (fs w)) as [o fs1].
  cbn [result final emitted].
  destruct (failure_of (clone_command p) o); reflexivity.
Qed.

End SetupRepos.

Section ReusedClones.

Context (os : OS) (cfg : Config).

(** What is assumed of the host: the configured projects have distinct
    clone directories; cloning one project, or creating the repository
    root, leaves the other clone directories as they are; a clone that
    exits zero has created its directory. *)
Hypothesis dirs_distinct : List.NoDup (map (project_dir cfg) (projects cfg)).

Hypothesis clone_frame :
  forall p q env fs0,
    In p (projects cfg) -> In q (projects cfg) ->
    project_dir cfg q <> project_dir cfg p ->
    os_path_exists os (project_dir cfg q)
      (snd (os_spawn os (clone_command p) (Some (REPOS_ROOT cfg)) env fs0))
    = os_path_exists os (project_dir cfg q) fs0.

Hypothesis makedirs_frame :
  forall q fs0,
    In q (projects cfg) ->
    os_path_exists os (project_dir cfg q)
      (snd (os_makedirs os (REPOS_ROOT cfg) fs0))
    = os_path_exists os (project_dir cfg q) fs0.

Hypothesis clone_creates :
  forall p env fs0 written fs1,
    In p (projects cfg) ->
    os_spawn os (clone_command p) (Some (REPOS_ROOT cfg)) env fs0
    = (Exited 0 written, fs1) ->
    os_path_exists os (project_dir cfg p) fs1 = true.

(** The invariant of the loop, over a part [ps] of the projects still to
    visit. *)
Lemma clone_missing_spec (ps : list (string * string)) :
  (forall p, In p ps -> In p (projects cfg)) ->
  List.NoDup (map (project_dir cfg) ps) ->
  forall w : World os,
    (forall ev, In ev (emitted (clone_missing os cfg ps w)) ->
       exists p env o,
         In p ps
         /\ ev = Spawn (clone_command p) (Some (REPOS_ROOT cfg)) env o
         /\ os_path_exists os (project_dir cfg p) (fs w) = false)
    /\ (result (clone_missing os cfg ps w) = Ok tt ->
        forall p, In p ps ->
          os_path_exists os (project_dir cfg p) (fs w) = false ->
          cloned cfg p (emitted (clone_missing os cfg ps w)))
    /\ (forall q, In q (projects cfg) ->
          ~ In (project_dir cfg q) (map (project_dir cfg) ps) ->
          os_path_exists os (project_dir cfg q)
            (fs (final (clone_missing os cfg ps w)))
          = os_path_exists os (project_dir cfg q) (fs w))
    /\ (result (clone_missing os cfg ps w) = Ok tt ->
        forall p, In p ps ->
          os_path_exists os (project_dir cfg p)
            (fs (final (clone_missing os cfg ps w))) = true).
Proof.
  induction ps as [|p ps IH]; intros Hsub Hnd w.
  - rewrite clone_missing_nil. cbn.
    split; [intros ev []|]. split; [intros _ p []|].
    split; [reflexivity|]. intros _ p [].
  - assert (Hp : In p (projects cfg)) by (apply Hsub; now left).
    assert (Hsub' : forall p', In p' ps -> In p' (projects cfg))
      by (intros p' Hp'; apply Hsub; now right).
    cbn [map] in Hnd. apply List.NoDup_cons_iff in Hnd as [Hfresh Hnd'].
    assert (Hother : forall p', In p' ps -> project_dir cfg p' <> project_dir cfg p).
    { intros p' Hp' E. apply Hfresh. rewrite <- E. now apply in_map. }
    destruct (os_path_exists os (project_dir cfg p) (fs w)) eqn:Hex.
    + rewrite clone_missing_present by assumption.
      destruct (IH Hsub' Hnd' w) as (Ha & Hb & Hc & Hd).
      split; [|split; [|split]].
      * intros ev Hev. destruct (Ha ev Hev) as (p' & env & o & Hp' & -> & Habs).
        exists p', env, o. split; [now right | auto].
      * intros Hok p' [<-|Hp'] Habs; [congruence | now apply Hb].
      * intros q Hq Hnot. apply Hc; [assumption|].
        intros Hin. apply Hnot. now right.
      * intros Hok p' [<-|Hp']; [|now apply Hd].
        rewrite Hc by assumption. exact Hex.
    + rewrite clone_missing_absent by assumption.
      pose proof (clone_frame p) as Hframe.
      pose proof (clone_creates p) as Hcreates.
      specialize (Hframe) with (env := environ w) (fs0 := fs w).
      specialize (Hcreates) with (env := environ w) (fs0 := fs w).
      destruct (os_spawn os (clone_command p) (Some (REPOS_ROOT cfg))
                  (environ w) (fs w)) as [o fs1].
      cbn [snd] in Hframe.
      destruct (failure_of (clone_command p) o) as [e|] eqn:Hfail.
      * cbn [result final emitted fs].
        split; [|split; [|split]].
        -- intros ev [<-|[]]. exists p, (environ w), o. split; [now left | auto].
        -- discriminate.
        -- intros q Hq Hnot. apply Hframe; [assumption..|].
           intros E. apply Hnot. left. now rewrite E.
        -- discriminate.
      * apply failure_of_None in Hfail as [written ->].
        cbv zeta. cbn [result final emitted].
        destruct (IH Hsub' Hnd' {| fs := fs1; environ := environ w |})
          as (Ha & Hb & Hc & Hd).
        cbn [fs] in Ha, Hb, Hc.
        split; [|split; [|split]].
        -- intros ev [<-|Hev].
           ++ exists p, (environ w), (Exited 0 written). split; [now left | auto].
           ++ destruct (Ha ev Hev) as (p' & env & o & Hp' & -> & Habs).
              exists p', env, o. split; [now right|]. split; [reflexivity|].
              rewrite <- Habs. symmetry. apply Hframe; auto.
        -- intros Hok p' [<-|Hp'] Habs.
           ++ exists (environ w), (Exited 0 written). now left.
           ++ destruct (Hb Hok p' Hp') as (env & o & Hin).
              { rewrite <- Habs. apply Hframe; auto. }
              exists env, o. now right.
        -- intros q Hq Hnot. rewrite Hc.
           ++ apply Hframe; [assumption..|].
              intros E. apply Hnot. left. now rewrite E.
           ++ assumption.
           ++ intros Hin. apply Hnot. now right.
        -- intros Hok p' [<-|Hp']; [|now apply Hd].
           rewrite Hc by assumption.
           eapply Hcreates; [assumption | reflexivity].
Qed.

(** A clone command is that of one project only. *)
Lemma clone_command_inj p q : clone_command p = clone_command q -> p = q.
Proof.
  destruct p, q. unfold clone_command. cbn. now intros [= -> ->].
Qed.

(** C8, as amended: [setup_repos] issues no clone for a project whose
    directory exists; the only commands it issues are clone commands of
    configured projects whose directory is absent; when it returns
    normally it has issued one for each of those, every clone directory
    exists, and a second run issues no command at all. *)
Theorem setup_repos_reuses_clones (w : World os) :
  let r := setup_repos os cfg w in
  (forall p, In p (projects cfg) ->
     cloned cfg p (emitted r) ->
     os_path_exists os (project_dir cfg p) (fs w) = false)
  /\ (forall ev, In ev (emitted r) ->
        exists p env o,
          In p (projects cfg)
          /\ ev = Spawn (clone_command p) (Some (REPOS_ROOT cfg)) env o)
  /\ (result r = Ok tt ->
      (forall p, In p (projects cfg) ->
         os_path_exists os (project_dir cfg p) (fs w) = false ->
         cloned cfg p (emitted r))
      /\ (forall p, In p (projects cfg) ->
            os_path_exists os (project_dir cfg p) (fs (final r)) = true)
      /\ emitted (setup_repos os cfg (final r)) = []).
Proof.
  assert (Hloop := clone_missing_spec (projects cfg) (fun p H => H) dirs_distinct).
  assert (Hrun : forall w0 : World os,
             (exists e, result (setup_repos os cfg w0) = Raise e
                        /\ emitted (setup_repos os cfg w0) = [])
             \/ exists w1,
                 fs w1 = snd (os_makedirs os (REPOS_ROOT cfg) (fs w0))
                 /\ result (setup_repos os cfg w0)
                    = result (clone_missing os cfg (projects cfg) w1)
                 /\ final (setup_repos os cfg w0)
                    = final (clone_missing os cfg (projects cfg) w1)
                 /\ emitted (setup_repos os cfg w0)
                    = emitted (clone_missing os cfg (projects cfg) w1)).
  { intros w0. rewrite setup_repos_parts. unfold bind.
    destruct (ensure_root_run os cfg w0) as (Hem & Hfin & [Hok|[errno Herr]]).
    - right. exists (final (ensure_root os cfg w0)).
      rewrite Hok, Hem. cbn [result final emitted app].
      rewrite Hfin at 1. auto.
    - left. exists (OSError errno). now rewrite Herr, Hem. }
  cbv zeta.
  destruct (Hrun w) as [(e & Hres & Hem)|(w1 & Hfs & Hres & Hfin & Hem)].
  { rewrite Hres, Hem.
    split; [intros p _ (env & o & [])|]. split; [intros ev []|]. discriminate. }
  rewrite Hres, Hfin, Hem.
  destruct (Hloop w1) as (Ha & Hb & _ & Hd).
  assert (Hstart : forall p, In p (projects cfg) ->
            os_path_exists os (project_dir cfg p) (fs w1)
            = os_path_exists os (project_dir cfg p) (fs w)).
  { intros p Hp. rewrite Hfs. now apply makedirs_frame. }
  split; [|split; [|intros Hok; split; [|split]]].
  - intros p Hp (env & o & Hin).
    destruct (Ha _ Hin) as (p' & env' & o' & Hp' & Heq & Habs).
    assert (p' = p) as -> by (apply clone_command_inj; congruence).
    now rewrite <- Hstart.
  - intros ev Hev. destruct (Ha ev Hev) as (p & env & o & Hp & -> & _). eauto.
  - intros p Hp Habs. apply Hb; [assumption..|]. now rewrite Hstart.
  - now apply Hd.
  - set (w2 := final (clone_missing os cfg (projects cfg) w1)) in *.
    destruct (Hrun w2) as [(e & _ & Hem2)|(w3 & Hfs3 & _ & _ & Hem3)];
      [assumption|].
    rewrite Hem3.
    destruct (emitted (clone_missing os cfg (projects cfg) w3)) as [|ev tr] eqn:E;
      [reflexivity|].
    destruct (Hloop w3) as (Ha3 & _).
    destruct (Ha3 ev) as (p & env & o & Hp & _ & Habs); [rewrite E; now left|].
    rewrite Hfs3, makedirs_frame, (Hd Hok p Hp) in Habs by assumption.
    discriminate.
Qed.

End ReusedClones.

(* ===================================================================== *)
(** * A run on the small host *)
(* ===================================================================== *)

Example demo_inspect_run :
  let r := botcmd_fastlane_env demo_os demo_cfg demo_message "App" "main"
             demo_cloned in
  commands (emitted r)
  = [["git"; "fetch"; "-p"];
     ["git"; "checkout"; "-B"; "main"; "origin/main"; "-f"];
     ["find"; "/repos/app"; "-maxdepth"; "2"; "-name"; "fastlane";
      "-type"; "d"; "-print"; "-quit"];
     ["bundle"; "install"];
     ["fastlane"; "env"]]
  /\ attachments (emitted r)
     = [{| to := "alice";
           content := "fastlane env" +:+ newline +:+ "ENV=" +:+ newline;
           name := "response-env.txt" |}].
Proof. vm_compute. split; reflexivity. Qed.

(* ===================================================================== *)
(** * The project root *)
(* ===================================================================== *)

(** With a repository root that ends in a slash, concatenation is the
    path join. *)
Lemma get_project_root_join cfg (project_name : string) :
  Py.endswith_char (REPOS_ROOT cfg) posixpath.sep = true ->
  Py.startswith project_name "/" = false ->
  get_project_root cfg project_name
  = posixpath.join (REPOS_ROOT cfg) project_name.
Proof.
  intros Hroot Hname. unfold get_project_root, posixpath.join.
  now rewrite Hname, Hroot, orb_true_r.
Qed.

Lemma same_letter_lower c d :
  same_letter c d = true -> Py.ascii_lower c = Py.ascii_lower d.
Proof.
  unfold same_letter, Py.ascii_lower. cbv zeta.
  rewrite !orb_true_iff, !andb_true_iff, !N.leb_le, N.eqb_eq, N.eqb_eq.
  intros [[H|[[H1 H2] H3]]|[[H1 H2] H3]].
  - apply bool_decide_eq_true in H. now subst.
  - rewrite (proj2 (andb_true_iff _ _)) by (rewrite !N.leb_le; lia).
    rewrite (proj2 (andb_false_iff _ _)) by (right; apply N.leb_gt; lia).
    rewrite <- H3. apply ascii_N_embedding.
  - rewrite (proj2 (andb_false_iff _ _)) by (right; apply N.leb_gt; lia).
    rewrite (proj2 (andb_true_iff _ _)) by (rewrite !N.leb_le; lia).
    rewrite <- H3. symmetry. apply ascii_N_embedding.
Qed.

Lemma same_spelling_lower (a b : string) :
  same_spelling a b = true -> Py.str_lower a = Py.str_lower b.
Proof.
  revert b. induction a as [|c a IH]; intros [|d b]; try discriminate;
    [reflexivity|].
  cbn [same_spelling Py.str_lower].
  intros [Hc Hab]%andb_true_iff.
  now rewrite (same_letter_lower c d Hc), (IH b Hab).
Qed.

(** The chat commands do not tell apart two spellings of a project name,
    written in ASCII, that differ in the case of letters only. *)
Lemma botcmd_case_insensitive os cfg message (name name' branch : string) :
  Py.is_ascii name = true -> Py.is_ascii name' = true ->
  same_spelling name name' = true ->
  botcmd_fastlane_env os cfg message name branch
  = botcmd_fastlane_env os cfg message name' branch
  /\ (forall environment,
         botcmd_fastlane os cfg message name environment branch
         = botcmd_fastlane os cfg message name' environment branch).
Proof.
  intros _ _ H. apply same_spelling_lower in H.
  unfold botcmd_fastlane_env, botcmd_fastlane. now rewrite H.
Qed.

(** C1, where the code departs from it: with the repository root
    configured as [/repos], [setup_repos] clones [app] into [/repos/app],
    the join of the root and the name, but [get_project_root] answers
    [/reposapp]; the commands of a flow are then spawned in a directory
    that does not exist, whatever the letter case of the name. *)
Theorem get_project_root_misses_separator :
  let cfg := demo_cfg_no_slash in
  let w := final (activate demo_os (Some cfg) demo_empty) in
  get_project_root cfg "app" = "/reposapp"
  /\ posixpath.join (REPOS_ROOT cfg) "app" = "/repos/app"
  /\ commands (emitted (activate demo_os (Some cfg) demo_empty))
     = [["git"; "clone"; "git@example.com:app.git"; "app"]]
  /\ os_path_exists demo_os "/repos/app" (fs w) = true
  /\ os_path_exists demo_os (get_project_root cfg "app") (fs w) = false
  /\ result (botcmd_fastlane_env demo_os cfg demo_message "App" "main" w)
     = Raise (OSError 2)
  /\ result (botcmd_fastlane_env demo_os cfg demo_message "app" "main" w)
     = Raise (OSError 2).
Proof. vm_compute. repeat split; reflexivity. Qed.

(* ===================================================================== *)
(** * The properties on the small host *)
(* ===================================================================== *)

(** Two commands that fail though no child exits non-zero: a clone that
    exits zero after a greeting of the server that is not UTF-8, and a
    command whose working directory does not exist, which is never
    spawned. *)
Lemma run_subprocess_fails_without_exit_status :
  let clone := ["git"; "clone"; demo_latin1; "site"] in
  fst (os_spawn demo_os clone (Some "/repos") ∅ (fs demo_cloned))
  = Exited 0 [(Stderr, "Cloning into 'site'..." +:+ newline);
              (Stderr, "remote: caf" +:+ String "233" newline)]
  /\ result (run_subprocess demo_os clone (Some "/repos") demo_cloned)
     = Raise UnicodeDecodeError
  /\ os_path_exists demo_os "/repos/site"
       (fs (final (run_subprocess demo_os clone (Some "/repos") demo_cloned)))
     = true
  /\ fst (os_spawn demo_os ["bundle"; "install"] (Some "/nowhere") ∅
            (fs demo_cloned))
     = SpawnFailed ENOENT
  /\ result (run_subprocess demo_os ["bundle"; "install"] (Some "/nowhere")
               demo_cloned)
     = Raise (OSError ENOENT).
Proof. vm_compute. repeat split; reflexivity. Qed.

(** The locator on the host with [mobile]: the search passes the file
    called [fastlane] and the directory [android], prints
    [/repos/mobile/ios/fastlane], and the locator answers
    [/repos/mobile/ios]. *)
Lemma find_fastlane_directory_parent_witness :
  result (find_fastlane_directory demo_os "/repos/mobile" demo_mobile)
  = Ok "/repos/mobile/ios".
Proof.
  apply (find_fastlane_directory_parent demo_os (fun fs => fs) "/repos/mobile"
           demo_mobile
           [("fastlane", File);
            ("android", Dir [("app", Dir [])]);
            ("ios", Dir [("Gemfile", File);
                         ("fastlane", Dir [("Fastfile", File)])])]
           ["ios"; "fastlane"]);
    first [reflexivity | vm_compute; discriminate].
Defined.

(** Where the locator does not answer the parent of the one [fastlane]
    directory.  The project [/repos/fastlane] has one such directory, in
    [ios]; the search prints the start point itself and the locator
    answers [/repos].  With the repository root written as the relative
    path [repos/], the clone of [app] has its [fastlane] directory, but
    the search, run inside the clone, looks for [repos/app] from there
    and exits with status 1. *)
Lemma locator_misses_the_parent :
  (exists es,
      resolve (fs demo_mobile) demo_cwd "/repos/fastlane" = Found (Dir es)
      /\ matches "fastlane" es = [["ios"; "fastlane"]])
  /\ result (find_fastlane_directory demo_os "/repos/fastlane" demo_mobile)
     = Ok "/repos"
  /\ (exists es,
         resolve (fs demo_mobile) demo_cwd "repos/app" = Found (Dir es)
         /\ matches "fastlane" es = [["fastlane"]])
  /\ result (find_fastlane_directory demo_os "repos/app" demo_mobile)
     = Raise (CalledProcessError 1 (find_command "repos/app")
                ("find: 'repos/app': No such file or directory" +:+ newline)).
Proof.
  split; [eexists; split; reflexivity|]. split; [reflexivity|].
  split; [eexists; split; reflexivity|]. reflexivity.
Qed.

(** A step that fails without a non-zero exit: the project is unknown,
    its directory does not exist, and the first command is not spawned.
    The flow sends no failure reaction and no attachment, and the
    exception leaves it. *)
Lemma unknown_project_failure_escapes :
  let r := run_flow demo_os demo_cfg Inspect demo_message "ghost" "main"
             demo_cloned in
  spawn_failures (emitted r) = [OSError 2]
  /\ chat (emitted r) = [AddReaction demo_message "hourglass"]
  /\ attachments (emitted r) = []
  /\ result r = Raise (OSError 2).
Proof. vm_compute. repeat split; reflexivity. Qed.

(** A deploy flow whose checkout exits non-zero. *)
Lemma flow_reports_command_failure_witness :
  let r := run_flow demo_os demo_cfg (Deploy "staging") demo_message "shop"
             "no-such-branch" demo_cloned in
  result r = Ok None
  /\ chat (emitted r)
     = [AddReaction demo_message "hourglass";
        RemoveReaction demo_message "hourglass";
        AddReaction demo_message "x";
        SendStream {| to := "alice";
                      content := "fatal: invalid reference" +:+ newline;
                      name := "error-staging.txt" |}]
  /\ In (LogException ("fatal: invalid reference" +:+ newline)) (emitted r).
Proof.
  cbv zeta.
  apply (flow_reports_command_failure demo_os demo_cfg (Deploy "staging")
           demo_message "shop" "no-such-branch" demo_cloned 1
           ["git"; "checkout"; "-B"; "no-such-branch";
            "origin/no-such-branch"; "-f"]
           ("fatal: invalid reference" +:+ newline)).
  vm_compute. left. reflexivity.
Defined.

(** A deploy flow all of whose commands exit zero: the attachment holds
    the two lines the release tool wrote, the first of them to standard
    error. *)
Lemma flow_reports_success_witness :
  let r := run_flow demo_os demo_cfg (Deploy "staging") demo_message "shop"
             "main" demo_cloned in
  result r
  = Ok (Some {| to := "alice";
                content := "fastlane deploy" +:+ newline
                           +:+ "ENV=staging" +:+ newline;
                name := "response-staging.txt" |})
  /\ chat (emitted r)
     = [AddReaction demo_message "hourglass";
        RemoveReaction demo_message "hourglass";
        AddReaction demo_message "white_check_mark";
        SendStream {| to := "alice";
                      content := "fastlane deploy" +:+ newline
                                 +:+ "ENV=staging" +:+ newline;
                      name := "response-staging.txt" |}]
  /\ commands (emitted r)
     = [["git"; "fetch"; "-p"];
        ["git"; "checkout"; "-B"; "main"; "origin/main"; "-f"];
        find_command "/repos/shop";
        ["bundle"; "install"];
        ["fastlane"; "deploy"]].
Proof.
  cbv zeta.
  pose proof (flow_reports_success demo_os demo_cfg (Deploy "staging")
                demo_message "shop" "main" demo_cloned) as H.
  cbv zeta in H.
  destruct (os_spawn demo_os ["git"; "fetch"; "-p"] _ _ _) as [o1 fs1] eqn:E1.
  destruct (os_spawn demo_os ["git"; "checkout"; "-B"; "main"; _; "-f"] _ _ fs1)
    as [o2 fs2] eqn:E2.
  destruct (os_spawn demo_os (find_command _) _ _ fs2) as [o3 fs3] eqn:E3.
  destruct (os_spawn demo_os ["bundle"; "install"] _ _ fs3) as [o4 fs4] eqn:E4.
  destruct (os_spawn demo_os (tool_command _) _ _ fs4) as [o5 fs5] eqn:E5.
  vm_compute in E1. injection E1 as <- <-.
  vm_compute in E2. injection E2 as <- <-.
  vm_compute in E3. injection E3 as <- <-.
  vm_compute in E4. injection E4 as <- <-.
  vm_compute in E5. injection E5 as <- <-.
  destruct H as [H _].
  destruct H as (written & out & Ho & Hout & _ & Hres & Hchat & _);
    try reflexivity.
  injection Ho as <-. vm_compute in Hout. injection Hout as <-.
  split; [exact Hres|]. split; [exact Hchat|]. reflexivity.
Defined.

(** An inspect-environment flow for a project that was never cloned. *)
Lemma flow_propagates_other_failures_witness :
  let r := run_flow demo_os demo_cfg Inspect demo_message "ghost" "main"
             demo_cloned in
  result r = Raise (OSError 2)
  /\ chat (emitted r) = [AddReaction demo_message "hourglass"]
  /\ attachments (emitted r) = [].
Proof.
  cbv zeta.
  apply (flow_propagates_other_failures demo_os demo_cfg Inspect demo_message
           "ghost" "main" demo_cloned (OSError 2)).
  - vm_compute. left. reflexivity.
  - discriminate.
Defined.

(** A deploy flow for one project, then an inspect-environment flow for
    another: [ENV] was unset before the deploy flow and is set after it,
    and the release tool of the inspect flow sees it. *)
Lemma deploy_ENV_reaches_next_inspect :
  let w := final (fastlane demo_os demo_cfg demo_message "app" "production"
                    "main" demo_cloned) in
  environ demo_cloned !! "ENV" = None
  /\ environ w !! "ENV" = Some "production"
  /\ attachments (emitted (fastlane_env demo_os demo_cfg demo_message "shop"
                             "main" demo_cloned))
     = [{| to := "alice";
           content := "fastlane env" +:+ newline +:+ "ENV=" +:+ newline;
           name := "response-env.txt" |}]
  /\ attachments (emitted (fastlane_env demo_os demo_cfg demo_message "shop"
                             "main" w))
     = [{| to := "alice";
           content := "fastlane env" +:+ newline
                      +:+ "ENV=production" +:+ newline;
           name := "response-env.txt" |}].
Proof. vm_compute. repeat split; reflexivity. Qed.

(** A first run whose first clone fails, then a second run: the first
    run issues no clone for the second project, whose directory is
    absent, and the second run issues the failed clone again. *)
Lemma failed_clone_is_issued_again :
  let r1 := setup_repos demo_os demo_cfg_gone demo_empty in
  let r2 := setup_repos demo_os demo_cfg_gone (final r1) in
  commands (emitted r1) = [["git"; "clone"; demo_gone; "app"]]
  /\ spawn_failures (emitted r1)
     = [CalledProcessError 128 ["git"; "clone"; demo_gone; "app"]
          ("fatal: repository not found" +:+ newline)]
  /\ os_path_exists demo_os
       (project_dir demo_cfg_gone ("shop", "git@example.com:shop.git"))
       (fs demo_empty) = false
  /\ commands (emitted r2) = [["git"; "clone"; demo_gone; "app"]].
Proof. vm_compute. repeat split; reflexivity. Qed.

(** Entries of a directory that got a new entry. *)
Arguments entry : simpl never.

Lemma find_filter {A} (P Q : A -> bool) (l : list A) :
  (forall x, P x = true -> Q x = true) ->
  List.find P (List.filter Q l) = List.find P l.
Proof.
  intros H. induction l as [|x l IH]; [reflexivity|]. simpl.
  destruct (P x) eqn:HP.
  - rewrite (H x HP). simpl. now rewrite HP.
  - destruct (Q x); simpl; [rewrite HP|]; exact IH.
Qed.

Lemma entry_set_entry_ne (name other : string) n es :
  String.eqb name other = false ->
  entry other (set_entry name n es) = entry other es.
Proof.
  intros Hne. unfold entry, set_entry. cbn [List.find fst]. rewrite Hne.
  rewrite find_filter; [reflexivity|].
  intros e He. apply String.eqb_eq in He. rewrite He.
  rewrite String.eqb_sym, Hne. reflexivity.
Qed.

Lemma entry_set_entry_eq (name : string) n es :
  entry name (set_entry name n es) = Some n.
Proof. unfold entry, set_entry. cbn [List.find fst]. now rewrite String.eqb_refl. Qed.

(** Unfolds the small host as far as a given tree allows. *)
Ltac demo_host :=
  cbn [os_path_exists os_spawn os_makedirs demo_os projects demo_cfg];
  unfold demo_spawn, demo_makedirs, demo_exists, demo_command, resolve,
    project_dir, posixpath.join, clone_command, demo_comps;
  repeat (progress (simpl; cbv [String.app])).

(** The small host meets what the reuse of clones assumes of a host. *)
Lemma demo_dirs_distinct :
  List.NoDup (map (project_dir demo_cfg) (projects demo_cfg)).
Proof.
  change (List.NoDup ["/repos/app"; "/repos/shop"]).
  repeat constructor; simpl; intuition discriminate.
Qed.

Lemma demo_clone_frame p q env fs0 :
  In p (projects demo_cfg) -> In q (projects demo_cfg) ->
  project_dir demo_cfg q <> project_dir demo_cfg p ->
  os_path_exists demo_os (project_dir demo_cfg q)
    (snd (os_spawn demo_os (clone_command p) (Some (REPOS_ROOT demo_cfg))
            env fs0))
  = os_path_exists demo_os (project_dir demo_cfg q) fs0.
Proof.
  intros [<-|[<-|[]]] [<-|[<-|[]]] Hne; try (now exfalso; apply Hne);
    clear Hne; demo_host;
    (destruct (entry "repos" fs0) as [[|es]|] eqn:Hr; demo_host; rewrite ?Hr;
     try reflexivity).
  - destruct (entry "app" es) eqn:Hs; demo_host; rewrite ?Hr, ?Hs; [reflexivity|].
    now rewrite ?entry_set_entry_eq, ?entry_set_entry_ne by reflexivity.
  - destruct (entry "shop" es) eqn:Hs; demo_host; rewrite ?Hr, ?Hs; [reflexivity|].
    now rewrite ?entry_set_entry_eq, ?entry_set_entry_ne by reflexivity.
Qed.

Lemma demo_makedirs_frame q fs0 :
  In q (projects demo_cfg) ->
  os_path_exists demo_os (project_dir demo_cfg q)
    (snd (os_makedirs demo_os (REPOS_ROOT demo_cfg) fs0))
  = os_path_exists demo_os (project_dir demo_cfg q) fs0.
Proof.
  intros [<-|[<-|[]]]; demo_host;
    (destruct (entry "repos" fs0) as [[|es]|] eqn:Hr; demo_host;
     rewrite ?Hr, ?entry_set_entry_eq; reflexivity).
Qed.

Lemma demo_clone_creates p env fs0 written fs1 :
  In p (projects demo_cfg) ->
  os_spawn demo_os (clone_command p) (Some (REPOS_ROOT demo_cfg)) env fs0
  = (Exited 0 written, fs1) ->
  os_path_exists demo_os (project_dir demo_cfg p) fs1 = true.
Proof.
  intros [<-|[<-|[]]]; demo_host;
    (destruct (entry "repos" fs0) as [[|es]|] eqn:Hr; demo_host;
     try discriminate).
  - destruct (entry "app" es) eqn:Hs; demo_host; [discriminate|].
    intros [= _ <-]. demo_host. now rewrite ?entry_set_entry_eq.
  - destruct (entry "shop" es) eqn:Hs; demo_host; [discriminate|].
    intros [= _ <-]. demo_host. now rewrite ?entry_set_entry_eq.
Qed.

(** On a host where [app] is cloned and [shop] is not, [setup_repos]
    clones [shop] only, and a second run issues nothing. *)
Lemma setup_repos_reuses_clones_witness :
  let r := setup_repos demo_os demo_cfg demo_app_cloned in
  commands (emitted r) = [["git"; "clone"; "git@example.com:shop.git"; "shop"]]
  /\ result r = Ok tt
  /\ (forall p, In p (projects demo_cfg) ->
        os_path_exists demo_os (project_dir demo_cfg p) (fs (final r)) = true)
  /\ emitted (setup_repos demo_os demo_cfg (final r)) = [].
Proof.
  cbv zeta.
  destruct (setup_repos_reuses_clones demo_os demo_cfg demo_dirs_distinct
              demo_clone_frame demo_makedirs_frame demo_clone_creates
              demo_app_cloned) as (_ & _ & Hok).
  destruct Hok as (_ & Hdirs & Hagain); [reflexivity|].
  split; [reflexivity|]. split; [reflexivity|]. split; assumption.
Defined.

(* ===================================================================== *)
(** * Activation *)
(* ===================================================================== *)

Section Activation.

Context (os : OS).

Lemma commands_only_ret {A} (a : A) (w : World os) : commands_only w (ret os a w).
Proof. repeat split. constructor. Qed.

Lemma commands_only_bind {A B} (m : M os A) (k : A -> M os B) (w : World os) :
  commands_only w (m w) ->
  (forall a w', environ w' = environ w -> commands_only w' (k a w')) ->
  commands_only w (bind os m k w).
Proof.
  intros (Hs & He & Ha) Hk. unfold bind.
  destruct (result (m w)) as [a|e]; [|now repeat split].
  destruct (Hk a (final (m w)) He) as (Hs' & He' & Ha').
  unfold commands_only. cbn [result final emitted].
  rewrite spawns_app, Hs, Hs'.
  split; [reflexivity|]. split; [congruence|].
  apply Forall_app. split; [assumption|].
  eapply List.Forall_impl; [|exact Ha'].
  intros [] Hev; try exact I. simpl in *. congruence.
Qed.

Lemma commands_only_command_run {A} (w : World os) (r : Run os A) :
  command_run w r -> commands_only w r.
Proof. intros (_ & Hs & _ & He & Ha). now repeat split. Qed.

Lemma commands_only_ensure_root cfg (w : World os) :
  commands_only w (ensure_root os cfg w).
Proof.
  destruct (ensure_root_run os cfg w) as (Hem & Hfin & _).
  unfold commands_only. rewrite Hem, Hfin. repeat split. constructor.
Qed.

Lemma commands_only_clone_missing cfg ps (w : World os) :
  commands_only w (clone_missing os cfg ps w).
Proof.
  revert w. induction ps as [|p ps IH]; intros w.
  - rewrite clone_missing_nil. apply commands_only_ret.
  - rewrite clone_missing_cons.
    apply commands_only_bind; [|intros _ w' _; apply IH].
    destruct (negb (os_path_exists os (project_dir cfg p) (fs w)));
      [|apply commands_only_ret].
    apply commands_only_bind;
      [|intros; apply commands_only_ret].
    apply commands_only_command_run, command_run_run_subprocess.
Qed.

Lemma commands_only_setup_repos cfg (w : World os) :
  commands_only w (setup_repos os cfg w).
Proof.
  rewrite setup_repos_parts.
  apply commands_only_bind; [apply commands_only_ensure_root|].
  intros _ w' _. apply commands_only_clone_missing.
Qed.

Lemma spawns_no_Activated (tr : list Event) :
  spawns tr = tr -> ~ In Activated tr.
Proof.
  intros H Hin. rewrite <- H in Hin.
  unfold spawns in Hin. apply List.filter_In in Hin as [_ Hin]. discriminate.
Qed.

Lemma activate_run (config : option Config) (w : World os) :
  let r := activate os config w in
  match config with
  | None =>
      result r = Ok tt
      /\ final r = w
      /\ emitted r
         = [LogInfo "Fastlane is not configured, please do so.";
            WarnAdmins "Fastlane is not configured, please do so."]
  | Some cfg =>
      let rs := setup_repos os cfg w in
      ~ In Activated (emitted rs)
      /\ fs (final r) = fs (final rs)
      /\ match result rs with
         | Ok _ =>
             result r = Ok tt
             /\ emitted r = emitted rs ++ [Activated]
             /\ environ (final r) = with_credentials cfg (environ w)
         | Raise e =>
             result r = Raise e
             /\ emitted r = emitted rs
             /\ environ (final r) = environ w
         end
  end.
Proof.
  cbv zeta. destruct config as [cfg|]; [|now repeat split].
  destruct (commands_only_setup_repos cfg w) as (Hs & He & _).
  split; [now apply spawns_no_Activated|].
  remember (activate os (Some cfg) w) as r eqn:Hr.
  unfold activate, bind in Hr.
  destruct (result (setup_repos os cfg w)) as [[]|e];
    cbn [result final emitted emit] in Hr; subst r;
    cbn [result final emitted fs]; [|now repeat split].
  pose proof (setup_environments_environ os cfg (final (setup_repos os cfg w)))
    as Henv.
  unfold setup_environments in *. cbn [result final emitted fs environ] in *.
  split; [reflexivity|]. split; [reflexivity|]. split; [reflexivity|].
  rewrite Henv, He. reflexivity.
Qed.

(** Activation.  Without a configuration the plugin logs one message,
    warns the administrators with it and stops: no command, no change of
    the world, no activation.  With one it sets up the clones first:
    when that fails the failure leaves [activate], the credentials are
    not put in the environment and the plugin is not activated; when it
    succeeds the credentials are put in the environment after the last
    clone and the plugin is activated. *)
Theorem activate_outcome (config : option Config) (w : World os) :
  let r := activate os config w in
  match config with
  | None =>
      result r = Ok tt
      /\ final r = w
      /\ emitted r
         = [LogInfo "Fastlane is not configured, please do so.";
            WarnAdmins "Fastlane is not configured, please do so."]
  | Some cfg =>
      let rs := setup_repos os cfg w in
      ~ In Activated (emitted rs)
      /\ fs (final r) = fs (final rs)
      /\ match result rs with
         | Ok _ =>
             result r = Ok tt
             /\ emitted r = emitted rs ++ [Activated]
             /\ environ (final r) = with_credentials cfg (environ w)
         | Raise e =>
             result r = Raise e
             /\ emitted r = emitted rs
             /\ environ (final r) = environ w
         end
  end.
Proof. exact (activate_run config w). Qed.

End Activation.

(* ===================================================================== *)
(** * More on the clones *)
(* ===================================================================== *)

Section Clones.

Context (os : OS) (cfg : Config).

Lemma setup_repos_after_makedirs (w : World os) :
  let '(err, fs1) := os_makedirs os (REPOS_ROOT cfg) (fs w) in
  let w1 := {| fs := fs1; environ := environ w |} in
  match err with
  | Some errno =>
      if errno =? EEXIST
      then setup_repos os cfg w = clone_missing os cfg (projects cfg) w1
      else setup_repos os cfg w
           = {| result := Raise (OSError errno); final := w1; emitted := [] |}
  | None => setup_repos os cfg w = clone_missing os cfg (projects cfg) w1
  end.
Proof.
  rewrite setup_repos_parts.
  unfold bind, ensure_root, try_except, makedirs.
  destruct (os_makedirs os (REPOS_ROOT cfg) (fs w)) as [[errno|] fs1];
    cbn [result final emitted app].
  - destruct (errno =? EEXIST); cbn [negb raise ret result final emitted app];
      [apply run_eta | reflexivity].
  - apply run_eta.
Qed.

(** The repository root.  An [OSError] of [os.makedirs] other than
    [EEXIST] leaves [setup_repos] before any project is looked at: no
    command is issued.  With [EEXIST], as with a root just created, the
    loop over the projects runs on the filesystem [os.makedirs] left. *)
Theorem setup_repos_root_errors (w : World os) :
  let '(err, fs1) := os_makedirs os (REPOS_ROOT cfg) (fs w) in
  let w1 := {| fs := fs1; environ := environ w |} in
  match err with
  | Some errno =>
      if errno =? EEXIST
      then setup_repos os cfg w = clone_missing os cfg (projects cfg) w1
      else setup_repos os cfg w
           = {| result := Raise (OSError errno); final := w1; emitted := [] |}
  | None => setup_repos os cfg w = clone_missing os cfg (projects cfg) w1
  end.
Proof. exact (setup_repos_after_makedirs w). Qed.

Lemma issued_clone_missing ps (w : World os) :
  sublist (issued (emitted (clone_missing os cfg ps w)))
    (map (fun p => (clone_command p, Some (REPOS_ROOT cfg))) ps).
Proof.
  revert w. induction ps as [|p ps IH]; intros w.
  - rewrite clone_missing_nil. constructor.
  - destruct (os_path_exists os (project_dir cfg p) (fs w)) eqn:Hex.
    + rewrite clone_missing_present by assumption.
      cbn [map]. apply sublist_cons, IH.
    + rewrite clone_missing_absent by assumption.
      destruct (os_spawn os (clone_command p) (Some (REPOS_ROOT cfg))
                  (environ w) (fs w)) as [o fs1].
      destruct (failure_of (clone_command p) o);
        cbv zeta; cbn [emitted issued omap map].
      * apply sublist_skip, sublist_nil_l.
      * apply sublist_skip, IH.
Qed.

(** [setup_repos] emits commands only; they are clone commands of the
    configured projects, each run in the repository root, in the order of
    the configuration and at most one for each entry; each is run with
    the environment [setup_repos] was entered with, which it leaves as it
    was. *)
Theorem setup_repos_clones_in_order (w : World os) :
  let r := setup_repos os cfg w in
  sublist (issued (emitted r))
    (map (fun p => (clone_command p, Some (REPOS_ROOT cfg))) (projects cfg))
  /\ spawns (emitted r) = emitted r
  /\ environ (final r) = environ w
  /\ forall cmd cwd env o,
      In (Spawn cmd cwd env o) (emitted r) -> env = environ w.
Proof.
  cbv zeta.
  destruct (commands_only_setup_repos os cfg w) as (Hs & He & Ha).
  split; [|split; [assumption|split; [assumption|]]].
  - pose proof (setup_repos_after_makedirs w) as Hroot.
    destruct (os_makedirs os (REPOS_ROOT cfg) (fs w)) as [[errno|] fs1];
      [destruct (errno =? EEXIST)|]; rewrite Hroot;
      first [apply issued_clone_missing | apply sublist_nil_l].
  - intros cmd cwd env o Hin.
    rewrite List.Forall_forall in Ha. exact (Ha _ Hin).
Qed.

(** When every configured clone directory exists once the root is there,
    [setup_repos] issues no command at all and leaves the filesystem as
    [os.makedirs] left it. *)
Theorem setup_repos_all_present (w : World os) :
  (forall p, In p (projects cfg) ->
     os_path_exists os (project_dir cfg p)
       (snd (os_makedirs os (REPOS_ROOT cfg) (fs w))) = true) ->
  emitted (setup_repos os cfg w) = []
  /\ fs (final (setup_repos os cfg w))
     = snd (os_makedirs os (REPOS_ROOT cfg) (fs w)).
Proof.
  intros Hall.
  assert (Hloop : forall ps (w1 : World os),
             (forall p, In p ps ->
                os_path_exists os (project_dir cfg p) (fs w1) = true) ->
             clone_missing os cfg ps w1 = ret os tt w1).
  { induction ps as [|p ps IH]; intros w1 Hps; [apply clone_missing_nil|].
    rewrite clone_missing_present by (apply Hps; now left).
    apply IH. intros q Hq. apply Hps. now right. }
  pose proof (setup_repos_after_makedirs w) as Hroot.
  destruct (os_makedirs os (REPOS_ROOT cfg) (fs w)) as [[errno|] fs1];
    [destruct (errno =? EEXIST)|]; rewrite Hroot;
    rewrite ?Hloop by exact Hall; split; reflexivity.
Qed.

End Clones.

(** On the host with both projects cloned nothing is cloned again. *)
Lemma setup_repos_all_present_witness :
  emitted (setup_repos demo_os demo_cfg demo_cloned) = []
  /\ fs (final (setup_repos demo_os demo_cfg demo_cloned)) = fs demo_cloned.
Proof.
  apply (setup_repos_all_present demo_os demo_cfg demo_cloned).
  intros p [<-|[<-|[]]]; reflexivity.
Defined.

(* ===================================================================== *)
(** * More on the flows *)
(* ===================================================================== *)

Section FlowOrder.

Context (os : OS).

Lemma issued_app tr1 tr2 : issued (tr1 ++ tr2) = issued tr1 ++ issued tr2.
Proof. apply omap_app. Qed.

Lemma flow_outcome_issued message response error (rs : Run os CompletedProcess) :
  issued (emitted (flow_outcome message response error rs))
  = issued (emitted rs).
Proof.
  unfold flow_outcome.
  destruct (result rs) as [cp|[rc cmd out|errno|]]; cbn [emitted];
    change (issued (AddReaction ?m ?e :: ?tr)) with (issued tr);
    rewrite ?issued_app, ?app_nil_r; reflexivity.
Qed.

Lemma spawn_failures_cons cmd cwd env o tr :
  spawn_failures (Spawn cmd cwd env o :: tr)
  = match failure_of cmd o with
    | Some e => e :: spawn_failures tr
    | None => spawn_failures tr
    end.
Proof. reflexivity. Qed.

(** The order of the commands of a flow.  Every run issues a first part
    of the plan: the fetch, the checkout and the search in the project
    root, then the bundle install and the release tool in the directory
    the locator returned, which is what it makes of the outcome of the
    search.  The fetch is always issued, and when no command fails the
    whole plan is. *)
Theorem flow_follows_plan cfg f message pn bn (w : World os) :
  let root := get_project_root cfg pn in
  let env := environ (start_world f w) in
  let fetch := ["git"; "fetch"; "-p"] in
  let checkout := ["git"; "checkout"; "-B"; bn; "origin/" +:+ bn; "-f"] in
  let r := run_flow os cfg f message pn bn w in
  let '(o1, fs1) := os_spawn os fetch (Some root) env (fs w) in
  let '(o2, fs2) := os_spawn os checkout (Some root) env fs1 in
  let '(o3, _) := os_spawn os (find_command root) (Some root) env fs2 in
  let d := locator_answer os o3 in
  issued (emitted r) `prefix_of` flow_plan f root bn d
  /\ issued (emitted r) <> []
  /\ (spawn_failures (emitted r) = [] ->
      issued (emitted r) = flow_plan f root bn d)
  /\ (failure_of (find_command root) o3 = None ->
      result (find_fastlane_directory os root {| fs := fs2; environ := env |})
      = Ok d).
Proof.
  cbv zeta.
  rewrite run_flow_outcome, flow_outcome_issued, flow_outcome_failures,
    flow_steps_run.
  cbv zeta.
  replace (fs (start_world f w)) with (fs w) by now destruct f.
  destruct (os_spawn os ["git"; "fetch"; "-p"] _ _ (fs w)) as [o1 fs1].
  destruct (os_spawn os ["git"; "checkout"; "-B"; bn; "origin/" +:+ bn; "-f"]
              _ _ fs1) as [o2 fs2].
  destruct (os_spawn os (find_command _) _ _ fs2) as [o3 fs3] eqn:E3.
  destruct (os_spawn os ["bundle"; "install"] _ _ fs3) as [o4 fs4].
  destruct (os_spawn os (tool_command f) _ _ fs4) as [o5 fs5].
  split; [|split; [|split]].
  - destruct (failure_of _ o1); [now eexists|].
    destruct (failure_of _ o2); [now eexists|].
    destruct (failure_of _ o3); [now eexists|].
    destruct (failure_of _ o4); [now eexists|].
    destruct (failure_of _ o5); now exists [].
  - destruct (failure_of _ o1); [discriminate|].
    destruct (failure_of _ o2); [discriminate|].
    destruct (failure_of _ o3); [discriminate|].
    destruct (failure_of _ o4); [discriminate|].
    destruct (failure_of _ o5); discriminate.
  - destruct (failure_of _ o1) eqn:H1;
      [cbn [emitted]; rewrite spawn_failures_cons, H1; discriminate|].
    destruct (failure_of _ o2) eqn:H2;
      [cbn [emitted]; rewrite !spawn_failures_cons, H1, H2; discriminate|].
    destruct (failure_of _ o3) eqn:H3;
      [cbn [emitted]; rewrite !spawn_failures_cons, H1, H2, H3; discriminate|].
    destruct (failure_of _ o4) eqn:H4;
      [cbn [emitted]; rewrite !spawn_failures_cons, H1, H2, H3, H4;
       discriminate|].
    destruct (failure_of _ o5) eqn:H5;
      [cbn [emitted]; rewrite !spawn_failures_cons, H1, H2, H3, H4, H5;
       discriminate|].
    reflexivity.
  - intros H3. unfold find_fastlane_directory, bind.
    change ["find"; get_project_root cfg pn; "-maxdepth"; "2"; "-name";
            "fastlane"; "-type"; "d"; "-print"; "-quit"]
      with (find_command (get_project_root cfg pn)).
    rewrite run_subprocess_run. cbn [fs environ]. rewrite E3, H3.
    reflexivity.
Qed.

(** ** Nothing runs after a command that fails *)

Lemma stops_at_failure_ret {A} (a : A) (w : World os) :
  stops_at_failure (ret os a w).
Proof. reflexivity. Qed.

Lemma stops_at_failure_run_subprocess args cwd (w : World os) :
  stops_at_failure (run_subprocess os args cwd w).
Proof.
  rewrite run_subprocess_run.
  destruct (os_spawn os args cwd (environ w) (fs w)) as [o fs1].
  unfold stops_at_failure. cbn [result emitted].
  destruct (failure_of args o) as [e|] eqn:Hf.
  - exists [], args, cwd, (environ w), o. auto.
  - cbn. now rewrite Hf.
Qed.

Lemma stops_at_failure_bind {A B} (m : M os A) (k : A -> M os B) (w : World os) :
  stops_at_failure (m w) ->
  (forall a w', stops_at_failure (k a w')) ->
  stops_at_failure (bind os m k w).
Proof.
  unfold stops_at_failure at 1 3. intros Hm Hk. unfold bind.
  destruct (result (m w)) as [a|e]; [|exact Hm].
  specialize (Hk a (final (m w))). unfold stops_at_failure in Hk.
  cbn [result emitted].
  destruct (result (k a (final (m w)))) as [b|e].
  - now rewrite spawn_failures_app, Hm, Hk.
  - destruct Hk as (pre & cmd & cwd & env & o & -> & Hf & Hpre).
    exists (emitted (m w) ++ pre), cmd, cwd, env, o.
    rewrite <- app_assoc. split; [reflexivity|]. split; [assumption|].
    now rewrite spawn_failures_app, Hm, Hpre.
Qed.

Lemma stops_at_failure_steps tool cfg pn bn (w : World os) :
  stops_at_failure (flow_steps os tool cfg pn bn w).
Proof.
  unfold flow_steps.
  apply stops_at_failure_bind.
  { unfold fetch_branch_from_origin, for_each.
    repeat (apply stops_at_failure_bind; [|intros ? ?]);
      first [apply stops_at_failure_run_subprocess | apply stops_at_failure_ret]. }
  intros _ w1. apply stops_at_failure_bind.
  { unfold find_fastlane_directory.
    apply stops_at_failure_bind; [apply stops_at_failure_run_subprocess|].
    intros; apply stops_at_failure_ret. }
  intros d w2. apply stops_at_failure_bind;
    [apply stops_at_failure_run_subprocess|].
  intros _ w3. apply stops_at_failure_run_subprocess.
Qed.

(** A command that fails is the last command of its flow: the commands
    before it did not fail and no command is run after it. *)
Theorem flow_stops_at_failure cfg f message pn bn (w : World os) e :
  In e (spawn_failures (emitted (run_flow os cfg f message pn bn w))) ->
  exists pre cmd cwd env o,
    spawns (emitted (run_flow os cfg f message pn bn w))
    = pre ++ [Spawn cmd cwd env o]
    /\ failure_of cmd o = Some e
    /\ spawn_failures pre = [].
Proof.
  rewrite run_flow_outcome, flow_outcome_failures, flow_outcome_spawns.
  intros H. apply steps_failure in H.
  pose proof (stops_at_failure_steps (tool_command f) cfg pn bn (start_world f w))
    as Hstop.
  unfold stops_at_failure in Hstop. rewrite H in Hstop.
  destruct Hstop as (pre & cmd & cwd & env & o & Hem & Hf & Hpre).
  destruct (command_run_steps os (tool_command f) cfg pn bn (start_world f w))
    as (_ & Hs & _).
  rewrite Hs, Hem. eauto 10.
Qed.

End FlowOrder.

Section FlowShapes.

Context (os : OS).

(** The three ways a flow ends.  It returns the attachment it sent after
    the success reaction, or returns nothing after the failure reaction
    and one attachment, or raises with the in-progress reaction left in
    place.  The reactions are on the invoking message, the attachment
    goes to its sender, and no run sends more than one. *)
Theorem flow_ends_in_one_of_three_ways cfg f message pn bn (w : World os) :
  let r := run_flow os cfg f message pn bn w in
  (exists s,
      result r = Ok (Some s)
      /\ to s = frm message /\ name s = response_name f
      /\ chat (emitted r)
         = [AddReaction message "hourglass";
            RemoveReaction message "hourglass";
            AddReaction message "white_check_mark";
            SendStream s])
  \/ (exists s,
         result r = Ok None
         /\ to s = frm message /\ name s = error_name f
         /\ In (LogException (content s)) (emitted r)
         /\ chat (emitted r)
            = [AddReaction message "hourglass";
               RemoveReaction message "hourglass";
               AddReaction message "x";
               SendStream s])
  \/ (exists e,
         result r = Raise e
         /\ chat (emitted r) = [AddReaction message "hourglass"]).
Proof.
  cbv zeta. rewrite run_flow_outcome.
  rewrite flow_outcome_chat
    by apply (command_run_steps os (tool_command f) cfg pn bn (start_world f w)).
  unfold flow_outcome.
  destruct (result (flow_steps os (tool_command f) cfg pn bn (start_world f w)))
    as [cp|[rc cmd out|errno|]]; cbn [result emitted].
  - left. eexists. repeat split.
  - right. left.
    exists {| to := frm message; content := out; name := error_name f |}.
    split; [reflexivity|]. split; [reflexivity|].
    split; [reflexivity|]. split; [|reflexivity].
    right. apply in_or_app. right. cbn. tauto.
  - right. right. eauto.
  - right. right. eauto.
Qed.

(** The inspect-environment flow never writes to [os.environ]: it leaves
    it as it found it and every command it runs inherits exactly that
    environment. *)
Theorem fastlane_env_keeps_environ cfg message pn bn (w : World os) :
  let r := fastlane_env os cfg message pn bn w in
  environ (final r) = environ w
  /\ forall cmd cwd env o,
      In (Spawn cmd cwd env o) (emitted r) -> env = environ w.
Proof. exact (run_flow_environ os cfg Inspect message pn bn w). Qed.

(** After an activation that returned normally, every command of a flow
    runs with the four object-storage values of the configuration in its
    environment. *)
Theorem activated_flow_sees_credentials cfg f message pn bn (w : World os) :
  result (activate os (Some cfg) w) = Ok tt ->
  forall cmd cwd env o,
    In (Spawn cmd cwd env o)
       (emitted (run_flow os cfg f message pn bn
                   (final (activate os (Some cfg) w)))) ->
    env !! "S3_KEY" = Some (S3_KEY cfg)
    /\ env !! "S3_SECRET" = Some (S3_SECRET cfg)
    /\ env !! "S3_BUCKET" = Some (S3_BUCKET cfg)
    /\ env !! "S3_REGION" = Some (S3_REGION cfg).
Proof.
  intros Hok cmd cwd env o Hin.
  pose proof (activate_run os (Some cfg) w) as Hact. cbv zeta in Hact.
  destruct Hact as (_ & _ & Hact).
  destruct (result (setup_repos os cfg w)) as [[]|e].
  2:{ destruct Hact as (Hres & _). congruence. }
  destruct Hact as (_ & _ & Henv).
  destruct (run_flow_environ os cfg f message pn bn
              (final (activate os (Some cfg) w))) as [_ Hcmds].
  rewrite (Hcmds _ _ _ _ Hin).
  unfold with_credentials in Henv.
  destruct f as [|environment]; cbn [start_world environ]; rewrite Henv;
    repeat split; now simplify_map_eq.
Qed.

End FlowShapes.

(* ===================================================================== *)
(** * More on the project root and the locator *)
(* ===================================================================== *)

Lemma str_app_cons_neq (a : string) c : a <> String c a.
Proof.
  intros H. apply (f_equal String.length) in H. simpl in H. lia.
Qed.

(** For a project name that does not start with a slash,
    [get_project_root] is the directory [setup_repos] clones the project
    into exactly when the configured root is empty or ends in a slash. *)
Theorem get_project_root_is_clone_dir cfg (project_name url : string) :
  Py.startswith project_name "/" = false ->
  get_project_root cfg project_name = project_dir cfg (project_name, url)
  <-> (REPOS_ROOT cfg = ""
       \/ Py.endswith_char (REPOS_ROOT cfg) posixpath.sep = true).
Proof.
  intros Hname.
  unfold get_project_root, project_dir, posixpath.join. cbn [fst].
  rewrite Hname.
  destruct (bool_decide (REPOS_ROOT cfg = "")) eqn:Hempty.
  { apply bool_decide_eq_true in Hempty. cbn [orb]. tauto. }
  apply bool_decide_eq_false in Hempty. cbn [orb].
  destruct (Py.endswith_char (REPOS_ROOT cfg) posixpath.sep).
  { tauto. }
  split; [|intros [?|?]; [contradiction|discriminate]].
  intros H. exfalso.
  apply (inj (String.app (REPOS_ROOT cfg))) in H.
  exact (str_app_cons_neq _ _ H).
Qed.

Lemma get_project_root_is_clone_dir_witness :
  get_project_root demo_cfg "app"
  = project_dir demo_cfg ("app", "git@example.com:app.git")
  <-> (REPOS_ROOT demo_cfg = ""
       \/ Py.endswith_char (REPOS_ROOT demo_cfg) posixpath.sep = true).
Proof.
  apply (get_project_root_is_clone_dir demo_cfg "app" "git@example.com:app.git").
  reflexivity.
Defined.

(** Two spellings of one project name on the inspect-environment
    command. *)
Lemma botcmd_case_insensitive_witness :
  botcmd_fastlane_env demo_os demo_cfg demo_message "App" "main"
  = botcmd_fastlane_env demo_os demo_cfg demo_message "APP" "main"
  /\ (forall environment,
         botcmd_fastlane demo_os demo_cfg demo_message "App" environment "main"
         = botcmd_fastlane demo_os demo_cfg demo_message "APP" environment
             "main").
Proof.
  apply (botcmd_case_insensitive demo_os demo_cfg demo_message "App" "APP" "main");
    reflexivity.
Defined.

Section NoMatch.

Context (os : OS).

(** When the search finds no [fastlane] directory it prints nothing and
    exits zero; the locator does not fail then: whatever the repository,
    it answers the directory above the working directory of the bot. *)
Theorem find_fastlane_directory_no_match project_root (w : World os) written fs' :
  os_spawn os
    ["find"; project_root; "-maxdepth"; "2"; "-name"; "fastlane";
     "-type"; "d"; "-print"; "-quit"]
    (Some project_root) (environ w) (fs w)
  = (Exited 0 written, fs') ->
  merged written = "" ->
  result (find_fastlane_directory os project_root w)
  = Ok (posixpath.abspath (os_getcwd os) posixpath.pardir)
  /\ spawn_failures (emitted (find_fastlane_directory os project_root w)) = [].
Proof.
  intros Hspawn Hout.
  assert (Htext : output_text written = Some "")
    by (unfold output_text; now rewrite Hout).
  unfold find_fastlane_directory, bind.
  rewrite run_subprocess_run, Hspawn.
  cbn [failure_of stdout_of]. rewrite Htext.
  cbn. now rewrite Htext.
Qed.

End NoMatch.

(** On the host where [app] has no [fastlane] directory the locator
    answers [/srv], the directory above [/srv/errbot], and the flow goes
    on to run its last two commands there. *)
Lemma find_fastlane_directory_no_match_witness :
  result (find_fastlane_directory demo_os "/repos/app" demo_bare) = Ok "/srv"
  /\ spawn_failures
       (emitted (find_fastlane_directory demo_os "/repos/app" demo_bare)) = [].
Proof.
  apply (find_fastlane_directory_no_match demo_os "/repos/app" demo_bare []
           (fs demo_bare)); reflexivity.
Defined.

Example demo_flow_without_fastlane_directory :
  let r := fastlane_env demo_os demo_cfg demo_message "app" "main" demo_bare in
  issued (emitted r) = flow_plan Inspect "/repos/app" "main" "/srv"
  /\ spawn_failures (emitted r) = [].
Proof. vm_compute. split; reflexivity. Qed.

(** A deploy flow whose checkout fails: the checkout is its last
    command. *)
Lemma flow_stops_at_failure_witness :
  exists pre cmd cwd env o,
    spawns (emitted (run_flow demo_os demo_cfg (Deploy "staging") demo_message
                       "shop" "no-such-branch" demo_cloned))
    = pre ++ [Spawn cmd cwd env o]
    /\ failure_of cmd o
       = Some (CalledProcessError 1
                 ["git"; "checkout"; "-B"; "no-such-branch";
                  "origin/no-such-branch"; "-f"]
                 ("fatal: invalid reference" +:+ newline))
    /\ spawn_failures pre = [].
Proof.
  apply (flow_stops_at_failure demo_os demo_cfg (Deploy "staging") demo_message
           "shop" "no-such-branch" demo_cloned).
  vm_compute. left. reflexivity.
Defined.

(** Activation of the two-project configuration on the host where [app]
    is cloned, then a deploy flow. *)
Lemma activated_flow_sees_credentials_witness :
  Forall (fun e =>
            match e with
            | Spawn _ _ env _ =>
                env !! "S3_KEY" = Some "key"
                /\ env !! "S3_SECRET" = Some "secret"
                /\ env !! "S3_BUCKET" = Some "bucket"
                /\ env !! "S3_REGION" = Some "eu-west-1"
            | _ => True
            end)
         (emitted (run_flow demo_os demo_cfg (Deploy "staging") demo_message
                     "shop" "main"
                     (final (activate demo_os (Some demo_cfg) demo_app_cloned)))).
Proof.
  apply List.Forall_forall. intros e Hin.
  destruct e as [| | | | | |cmd cwd env o|]; try exact I.
  apply (activated_flow_sees_credentials demo_os demo_cfg (Deploy "staging")
           demo_message "shop" "main" demo_app_cloned eq_refl cmd cwd env o Hin).
Defined.

(* ===================================================================== *)
(** * More on the configuration *)
(* ===================================================================== *)

Lemma ascii_lower_not_upper c : Py.byte_in 65 90 (Py.ascii_lower c) = false.
Proof. destruct c as [[] [] [] [] [] [] [] []]; reflexivity. Qed.

Lemma has_upper_lower (s : string) : has_upper (Py.str_lower s) = false.
Proof.
  induction s as [|c s IH]; [reflexivity|].
  cbn [Py.str_lower has_upper]. now rewrite ascii_lower_not_upper, IH.
Qed.

(** A configured project name that holds a letter A to Z, under a
    repository root that ends in a slash: whatever is typed on the chat
    in ASCII, the project root the flow computes from it is another path
    than the directory [setup_repos] cloned that project into. *)
Theorem lowered_root_is_not_upper_case_clone cfg
        (project_name url typed : string) :
  Py.is_ascii typed = true ->
  has_upper project_name = true ->
  Py.startswith project_name "/" = false ->
  Py.endswith_char (REPOS_ROOT cfg) posixpath.sep = true ->
  get_project_root cfg (Py.str_lower typed)
  <> project_dir cfg (project_name, url).
Proof.
  intros _ Hupper Hname Hroot E.
  unfold project_dir in E. cbn [fst] in E.
  rewrite <- (get_project_root_join cfg project_name Hroot Hname) in E.
  unfold get_project_root in E.
  apply (inj (String.app (REPOS_ROOT cfg))) in E.
  rewrite <- E, has_upper_lower in Hupper. discriminate.
Qed.

Lemma lowered_root_is_not_upper_case_clone_witness :
  get_project_root demo_cfg (Py.str_lower "MyApp")
  <> project_dir demo_cfg ("MyApp", "git@example.com:myapp.git").
Proof.
  apply (lowered_root_is_not_upper_case_clone demo_cfg "MyApp"
           "git@example.com:myapp.git" "MyApp");
    reflexivity.
Defined.

Section ConfigurationUse.

Context (os : OS).

(** The flows read nothing of the configuration but the repository root:
    the project name is not looked up among the configured projects, and
    two configurations with the same root give the same runs. *)
Theorem flows_read_only_the_root cfg cfg' f message pn bn :
  REPOS_ROOT cfg = REPOS_ROOT cfg' ->
  run_flow os cfg f message pn bn = run_flow os cfg' f message pn bn.
Proof.
  intros H. destruct f; unfold run_flow, fastlane_env, fastlane, get_project_root;
    now rewrite H.
Qed.

(** [setup_environments] is idempotent: a second call changes nothing. *)
Theorem setup_environments_idempotent cfg (w : World os) :
  final (setup_environments os cfg (final (setup_environments os cfg w)))
  = final (setup_environments os cfg w).
Proof.
  pose proof (setup_environments_environ os cfg w) as H1.
  pose proof (setup_environments_environ os cfg
                (final (setup_environments os cfg w))) as H2.
  destruct (final (setup_environments os cfg
                     (final (setup_environments os cfg w)))) as [fs2 env2] eqn:E2.
  destruct (final (setup_environments os cfg w)) as [fs1 env1] eqn:E1.
  cbn [environ] in H1, H2.
  assert (fs2 = fs1) as ->.
  { unfold setup_environments in E2. cbn in E2. now injection E2. }
  f_equal. rewrite H2, H1.
  apply map_eq. intros k.
  destruct (decide (k = "S3_REGION")) as [->|?]; [now simplify_map_eq|].
  destruct (decide (k = "S3_BUCKET")) as [->|?]; [now simplify_map_eq|].
  destruct (decide (k = "S3_SECRET")) as [->|?]; [now simplify_map_eq|].
  destruct (decide (k = "S3_KEY")) as [->|?]; [now simplify_map_eq|].
  now simplify_map_eq.
Qed.

End ConfigurationUse.

(** A configuration that lists no project drives the same flow as the
    one that lists two. *)
Lemma flows_read_only_the_root_witness :
  run_flow demo_os demo_cfg Inspect demo_message "app" "main"
  = run_flow demo_os
      {| REPOS_ROOT := "/repos/"; S3_KEY := ""; S3_SECRET := "";
         S3_BUCKET := ""; S3_REGION := ""; projects := [] |}
      Inspect demo_message "app" "main".
Proof.
  apply (flows_read_only_the_root demo_os). reflexivity.
Defined.
